(** * Square payment handler for Vendure: a shallow embedding

    The development follows [src/square-payment-handler.ts] and
    [src/square.plugin.ts].  The module-level variables [squareOptions] and
    [squareClient] become fields of an explicit [World]; the processor
    (Square's API behind the SDK client), the wall clock and the logger are
    the handler's effects.  Handlers are computations in a small state and
    exception monad [M], so that [try]/[catch], early [return] and the
    mutation of the cached client read as in the TypeScript. *)

From stdpp Require Import base strings gmap pretty list.
From Stdlib Require Import ZArith Lia Ascii.

Local Open Scope string_scope.
Local Open Scope Z_scope.

(** ** JavaScript values *)

(** The values a payment's free-form [metadata: Record<string, any>] can
    hold.  Objects are opaque: only their truthiness is ever observed. *)
Inductive jsval :=
| JUndefined
| JNull
| JBool (b : bool)
| JNum (n : Z)
| JStr (s : string)
| JObj.

(** [ToBoolean]. *)
Definition truthy (v : jsval) : bool :=
  match v with
  | JUndefined | JNull => false
  | JBool b => b
  | JNum n => negb (n =? 0)
  | JStr s => negb (bool_decide (s = ""))
  | JObj => true
  end.

(** [a || b] on values. *)
Definition js_or (a b : jsval) : jsval := if truthy a then a else b.

(** Property read [o.k]: a missing property reads as [undefined]. *)
Definition prop (o : gmap string jsval) (k : string) : jsval :=
  default JUndefined (o !! k).

(** An optional string field ([string | undefined]) is an [option string]. *)
Definition js_of_str (o : option string) : jsval :=
  match o with Some s => JStr s | None => JUndefined end.

(** [!o] for an optional string. *)
Definition falsy_str (o : option string) : bool :=
  match o with
  | Some s => bool_decide (s = "")
  | None => true
  end.

(** [o || d] for an optional string and a string literal. *)
Definition or_else (o : option string) (d : string) : string :=
  match o with
  | Some s => if bool_decide (s = "") then d else s
  | None => d
  end.

(** [`${o}`]: an absent value prints as [undefined]. *)
Definition tpl (o : option string) : string := default "undefined" o.

(** Thrown values are error objects, as the processor's client and the
    module itself throw them; [message] may be missing or empty.  A
    rejection with [null] or [undefined], on which reading [error.message]
    in a [catch] would itself throw, is not represented. *)
Record JsError := new_Error_obj { message : option string }.

(** [new Error(msg)]. *)
Definition new_Error (msg : string) : JsError := {| message := Some msg |}.

(** ** Completions, promises and the timeout wrapper *)

(** How the evaluation of a piece of code ends: with a value, with a thrown
    error, or never (an [await] on a promise that does not settle). *)
Inductive Completion (A : Type) :=
| Normal (a : A)
| Throw (e : JsError)
| Hang.
Arguments Normal {A} a.
Arguments Throw {A} e.
Arguments Hang {A}.

(** A promise, seen from the moment it is raced: it settles [after] so many
    milliseconds, fulfilled or rejected, or it stays pending for ever. *)
Inductive Promise (A : Type) :=
| Settles (after : Z) (outcome : A + JsError)
| Pending.
Arguments Settles {A} after outcome.
Arguments Pending {A}.

(** The delay a timer really waits: the runtime replaces a delay below 1
    or above 2147483647 by 1 ms. *)
Definition setTimeout_delay (ms : Z) : Z :=
  if (ms <? 1) || (2147483647 <? ms) then 1 else ms.

(** [new Promise((_, reject) => setTimeout(() => reject(e), ms))]. *)
Definition reject_after {A} (ms : Z) (e : JsError) : Promise A :=
  Settles (setTimeout_delay ms) (inr e).

(** [Promise.race([p, q])]: the one that settles first decides.  Time is in
    whole milliseconds; when both settle in the same millisecond [p], the
    first of the array and at the call sites the promise that existed
    before the timer was armed, decides. *)
Definition Promise_race {A} (p q : Promise A) : Promise A :=
  match p, q with
  | Settles d o, Settles d' o' => if d <=? d' then Settles d o else Settles d' o'
  | Settles d o, Pending => Settles d o
  | Pending, q => q
  end.

(** [withTimeout(promise, timeoutMs = 30000, errorMessage = 'Request timeout')].
    An omitted argument is [None] and takes its default. *)
Definition withTimeout {A} (promise : Promise A)
    (timeoutMs : option Z) (errorMessage : option string) : Promise A :=
  let timeoutMs := default 30000 timeoutMs in
  let errorMessage := default "Request timeout" errorMessage in
  let timeout := reject_after timeoutMs (new_Error errorMessage) in
  Promise_race promise timeout.

(** ** Platform and processor data *)

Record SquarePaymentHandlerOptions := {
  accessToken : string;
  environment : string;
  locationId : string;
}.

Inductive SquareEnvironment := Production | Sandbox.

(** A constructed SDK client.  [ref] is the identity of the object: the
    n-th client constructed in the process has [ref = n]. *)
Module SquareClient.
Record t := mk {
  ref : nat;
  token : string;
  environment : SquareEnvironment;
}.
End SquareClient.

(** The host platform's order, as far as the handler reads it.  Money is
    in integer minor units on the platform, so amounts are integers and
    [BigInt(amount)] is the amount itself. *)
Record Order := {
  code : string;
  total : Z;
  currencyCode : string;
}.

(** The platform's [ID] is [string | number]. *)
Inductive ID := IdStr (s : string) | IdNum (n : Z).

Definition tpl_ID (i : ID) : string :=
  match i with IdStr s => s | IdNum n => pretty n end.

(** The platform's payment record. *)
Module Payment.
Record t := mk {
  id : ID;
  transactionId : option string;
}.
End Payment.

Module RefundOrderInput.
Record t := mk { reason : option string }.
End RefundOrderInput.

(** The processor's payment and refund objects; every field is optional in
    the SDK's types. *)
Module SqPayment.
Record t := mk {
  id : option string;
  status : option string;
  receiptUrl : option string;
  orderId : option string;
}.
End SqPayment.

Module SqRefund.
Record t := mk {
  id : option string;
  status : option string;
}.
End SqRefund.

Record Money := { amount : Z; currency : string }.

(** The three outbound requests. *)
Module CreatePaymentRequest.
Record t := mk {
  sourceId : jsval;
  idempotencyKey : string;
  amountMoney : Money;
  locationId : string;
  referenceId : string;
  note : string;
  autocomplete : bool;
}.
End CreatePaymentRequest.

Module CompletePaymentRequest.
Record t := mk { paymentId : string }.
End CompletePaymentRequest.

Module RefundPaymentRequest.
Record t := mk {
  idempotencyKey : string;
  paymentId : string;
  amountMoney : Money;
  reason : string;
}.
End RefundPaymentRequest.

Inductive Request :=
| PaymentsCreate (r : CreatePaymentRequest.t)
| PaymentsComplete (r : CompletePaymentRequest.t)
| RefundsRefundPayment (r : RefundPaymentRequest.t).

(** One processor API call: the client it went through and what was sent. *)
Record ApiCall := { via : SquareClient.t; request : Request }.

(** ** Results handed back to the platform *)

Inductive PaymentState := Authorized | Declined.
Inductive RefundState := Settled | Failed.

Module CreatePaymentResult.
Record t := mk {
  amount : Z;
  state : PaymentState;
  transactionId : option string;
  errorMessage : option string;
  metadata : gmap string jsval;
}.
End CreatePaymentResult.

(** [SettlePaymentResult | SettlePaymentErrorResult]; the branch for a
    missing payment id sets no [metadata] at all. *)
Module SettlePaymentResult.
Record t := mk {
  success : bool;
  errorMessage : option string;
  metadata : option (gmap string jsval);
}.
End SettlePaymentResult.

Module CreateRefundResult.
Record t := mk {
  state : RefundState;
  transactionId : option string;
  metadata : gmap string jsval;
}.
End CreateRefundResult.

(** ** The world: module state and effect traces *)

Inductive LogLevel := LInfo | LWarn | LError.
Record LogEntry := { level : LogLevel; text : string; context : string }.

Record World := {
  squareOptions : option SquarePaymentHandlerOptions;
  squareClient : option SquareClient.t;
  constructed : nat;          (* clients constructed so far *)
  clock_reads : nat;          (* readings of the wall clock so far *)
  calls : list ApiCall;       (* processor API calls made, oldest first *)
  logs : list LogEntry;       (* log lines written, oldest first *)
}.

(** The state of the module when it has just been loaded. *)
Definition initial_world : World :=
  {| squareOptions := None; squareClient := None; constructed := 0;
     clock_reads := 0; calls := []; logs := [] |}.

(** What the handler does not control: the wall clock (its k-th reading),
    the rendering of a time as an ISO string, and the processor, which
    answers a request knowing the calls that came before it. *)
Record Host := {
  clock : nat → Z;
  toISOString : Z → string;
  payments_create :
    list ApiCall → SquareClient.t → CreatePaymentRequest.t →
    Promise (option SqPayment.t);
  payments_complete :
    list ApiCall → SquareClient.t → CompletePaymentRequest.t →
    Promise (option SqPayment.t);
  refunds_refundPayment :
    list ApiCall → SquareClient.t → RefundPaymentRequest.t →
    Promise (option SqRefund.t);
}.

(** ** The monad *)

Definition M (A : Type) : Type := World → Completion A * World.

Definition ret {A} (a : A) : M A := λ w, (Normal a, w).

Definition bind {A B} (m : M A) (k : A → M B) : M B :=
  λ w, match m w with
       | (Normal a, w') => k a w'
       | (Throw e, w') => (Throw e, w')
       | (Hang, w') => (Hang, w')
       end.

Definition throw {A} (e : JsError) : M A := λ w, (Throw e, w).

(** [try { body } catch (error) { handler }]. *)
Definition try_catch {A} (body : M A) (handler : JsError → M A) : M A :=
  λ w, match body w with
       | (Throw e, w') => handler e w'
       | r => r
       end.

(** [await p]. *)
Definition await {A} (p : Promise A) : M A :=
  λ w, match p with
       | Settles _ (inl a) => (Normal a, w)
       | Settles _ (inr e) => (Throw e, w)
       | Pending => (Hang, w)
       end.

Declare Scope js_scope.
Delimit Scope js_scope with js.
Notation "'let*' x := m 'in' k" := (bind m (λ x, k))
  (at level 10, x name, m at level 100, k at level 200, only parsing)
  : js_scope.
Notation "m ;;; k" := (bind m (λ _, k))
  (at level 100, k at level 200, right associativity, only parsing) : js_scope.
Local Open Scope js_scope.

(** ** Effects *)

(** The single-field updates of the world. *)
Definition set_options (o : option SquarePaymentHandlerOptions) (w : World) :=
  {| squareOptions := o; squareClient := squareClient w;
     constructed := constructed w; clock_reads := clock_reads w;
     calls := calls w; logs := logs w |}.

Definition set_client (c : option SquareClient.t) (w : World) :=
  {| squareOptions := squareOptions w; squareClient := c;
     constructed := constructed w; clock_reads := clock_reads w;
     calls := calls w; logs := logs w |}.

Definition count_client (w : World) :=
  {| squareOptions := squareOptions w; squareClient := squareClient w;
     constructed := S (constructed w); clock_reads := clock_reads w;
     calls := calls w; logs := logs w |}.

Definition tick (w : World) :=
  {| squareOptions := squareOptions w; squareClient := squareClient w;
     constructed := constructed w; clock_reads := S (clock_reads w);
     calls := calls w; logs := logs w |}.

Definition push_call (c : ApiCall) (w : World) :=
  {| squareOptions := squareOptions w; squareClient := squareClient w;
     constructed := constructed w; clock_reads := clock_reads w;
     calls := calls w ++ [c]; logs := logs w |}.

Definition push_log (l : LogEntry) (w : World) :=
  {| squareOptions := squareOptions w; squareClient := squareClient w;
     constructed := constructed w; clock_reads := clock_reads w;
     calls := calls w; logs := logs w ++ [l] |}.

(** [new SquareClient({token, environment})]: a fresh object. *)
Definition new_SquareClient (token : string) (env : SquareEnvironment)
  : M SquareClient.t :=
  λ w, (Normal (SquareClient.mk (constructed w) token env), count_client w).

Section Handler.
Variable host : Host.

(** [Date.now()] (and the reading of the clock in [new Date()]). *)
Definition Date_now : M Z :=
  λ w, (Normal (clock host (clock_reads w)), tick w).

(** [new Date().toISOString()]. *)
Definition new_Date_toISOString : M string :=
  let* t := Date_now in ret (toISOString host t).

(** [Logger.info / warn / error (message, context)]. *)
Definition Logger (l : LogLevel) (msg ctx : string) : M unit :=
  λ w, (Normal (), push_log (Build_LogEntry l msg ctx) w).

(** Issuing a request through a client: the call is recorded and the
    processor's promise for it is returned. *)
Definition send {A} (client : SquareClient.t) (r : Request)
    (answer : list ApiCall → Promise A) : M (Promise A) :=
  λ w, (Normal (answer (calls w)), push_call (Build_ApiCall client r) w).

Definition client_payments_create (client : SquareClient.t)
    (r : CreatePaymentRequest.t) : M (Promise (option SqPayment.t)) :=
  send client (PaymentsCreate r) (λ h, payments_create host h client r).

Definition client_payments_complete (client : SquareClient.t)
    (r : CompletePaymentRequest.t) : M (Promise (option SqPayment.t)) :=
  send client (PaymentsComplete r) (λ h, payments_complete host h client r).

Definition client_refunds_refundPayment (client : SquareClient.t)
    (r : RefundPaymentRequest.t) : M (Promise (option SqRefund.t)) :=
  send client (RefundsRefundPayment r)
       (λ h, refunds_refundPayment host h client r).

(** ** Module-level functions *)

Definition setSquareOptions (options : SquarePaymentHandlerOptions) : M unit :=
  λ w, (Normal (), set_client None (set_options (Some options) w)).

Definition not_configured : string :=
  "Square options not configured - call SquarePlugin.init() first".

Definition getSquareOptions : M SquarePaymentHandlerOptions :=
  λ w, match squareOptions w with
       | None => throw (new_Error not_configured) w
       | Some o => ret o w
       end.

Definition getSquareClient : M SquareClient.t :=
  λ w, match squareClient w with
       | None =>
           (let* options := getSquareOptions in
            let* c := new_SquareClient (accessToken options)
                        (if bool_decide (environment options = "production")
                         then Production else Sandbox) in
            (λ w', (Normal c, set_client (Some c) w'))) w
       | Some c => (Normal c, w)
       end.

(** [SquarePlugin.init(options)]. *)
Definition init (options : SquarePaymentHandlerOptions) : M unit :=
  setSquareOptions options.

(** ** The payment handler *)

Definition handler_code : string := "square-payment".
Definition loggerCtx : string := "SquarePaymentHandler".

Definition createPayment (order : Order) (amount : Z)
    (metadata : gmap string jsval) : M CreatePaymentResult.t :=
  let* startTime := Date_now in
  try_catch
    (let* client := getSquareClient in
     let sourceId := js_or (prop metadata "sourceId") (prop metadata "token") in
     if negb (truthy sourceId) then
       Logger LWarn
         ("Payment declined: Missing sourceId for order " +:+ code order)
         loggerCtx ;;;
       ret (CreatePaymentResult.mk (total order) Declined None
              (Some "Missing Square payment token (sourceId) from frontend") ∅)
     else
       let* now := Date_now in
       let idempotencyKey := code order +:+ "-create-" +:+ pretty now in
       let* options := getSquareOptions in
       let* promise :=
         client_payments_create client
           (CreatePaymentRequest.mk sourceId idempotencyKey
              {| amount := amount; currency := currencyCode order |}
              (locationId options) (code order)
              ("Order " +:+ code order) false) in
       let* response :=
         await (withTimeout promise (Some 30000)
                  (Some "Square payment creation timeout")) in
       match response with
       | None =>
           Logger LError
             ("Payment declined: No payment object for order " +:+ code order)
             loggerCtx ;;;
           ret (CreatePaymentResult.mk (total order) Declined None
                  (Some "Square payment creation failed - no payment object returned")
                  ∅)
       | Some payment =>
           let* t := Date_now in
           Logger LInfo
             ("Payment authorized: Order " +:+ code order +:+ ", Amount "
              +:+ pretty (total order) +:+ ", TxID " +:+ tpl (SqPayment.id payment)
              +:+ ", " +:+ pretty (t - startTime) +:+ "ms") loggerCtx ;;;
           ret (CreatePaymentResult.mk (total order) Authorized
                  (Some (or_else (SqPayment.id payment) "")) None
                  (<["squarePaymentId" := js_of_str (SqPayment.id payment)]>
                   (<["status" := js_of_str (SqPayment.status payment)]>
                    (<["receiptUrl" := js_of_str (SqPayment.receiptUrl payment)]>
                     (<["orderId" := js_of_str (SqPayment.orderId payment)]> ∅)))))
       end)
    (λ error,
       let* t := Date_now in
       Logger LError
         ("Payment creation failed for order " +:+ code order +:+ ": "
          +:+ or_else (message error) "Unknown error"
          +:+ " (" +:+ pretty (t - startTime) +:+ "ms)") loggerCtx ;;;
       ret (CreatePaymentResult.mk (total order) Declined None
              (Some (or_else (message error) "Square payment creation failed"))
              {["error" := js_of_str (message error)]})).

Definition settlePayment (order : Order) (payment : Payment.t)
  : M SettlePaymentResult.t :=
  let* startTime := Date_now in
  try_catch
    (let* client := getSquareClient in
     let squarePaymentId := Payment.transactionId payment in
     if falsy_str squarePaymentId then
       Logger LWarn
         ("Settlement failed: Missing payment ID for order " +:+ code order)
         loggerCtx ;;;
       ret (SettlePaymentResult.mk false
              (Some "Missing Square payment ID - cannot settle payment") None)
     else
       let* promise :=
         client_payments_complete client
           (CompletePaymentRequest.mk (default "" squarePaymentId)) in
       let* response :=
         await (withTimeout promise (Some 30000)
                  (Some "Square payment settlement timeout")) in
       let completedPayment := response in
       match completedPayment with
       | Some cp =>
           if bool_decide (SqPayment.status cp = Some "COMPLETED") then
             let* t := Date_now in
             Logger LInfo
               ("Payment settled: Order " +:+ code order +:+ ", TxID "
                +:+ tpl (SqPayment.id cp) +:+ ", "
                +:+ pretty (t - startTime) +:+ "ms") loggerCtx ;;;
             let* completedAt := new_Date_toISOString in
             ret (SettlePaymentResult.mk true None
                    (Some (<["squarePaymentId" := js_of_str (SqPayment.id cp)]>
                           (<["status" := js_of_str (SqPayment.status cp)]>
                            (<["completedAt" := JStr completedAt]> ∅)))))
           else
             ret (SettlePaymentResult.mk false
                    (Some ("Square payment not completed. Status: "
                           +:+ tpl (SqPayment.status cp)))
                    (Some {["status" := js_of_str (SqPayment.status cp)]}))
       | None =>
           ret (SettlePaymentResult.mk false
                  (Some ("Square payment not completed. Status: " +:+ tpl None))
                  (Some {["status" := JUndefined]}))
       end)
    (λ error,
       let* t := Date_now in
       Logger LError
         ("Payment settlement failed for order " +:+ code order +:+ ": "
          +:+ or_else (message error) "Unknown error"
          +:+ " (" +:+ pretty (t - startTime) +:+ "ms)") loggerCtx ;;;
       ret (SettlePaymentResult.mk false
              (Some (or_else (message error) "Failed to settle Square payment"))
              (Some {["error" := js_of_str (message error)]}))).

Definition createRefund (input : RefundOrderInput.t) (amount : Z)
    (order : Order) (payment : Payment.t) : M CreateRefundResult.t :=
  let* startTime := Date_now in
  try_catch
    (let* client := getSquareClient in
     let squarePaymentId := Payment.transactionId payment in
     if falsy_str squarePaymentId then
       Logger LWarn
         ("Refund failed: Missing payment ID for order " +:+ code order)
         loggerCtx ;;;
       ret (CreateRefundResult.mk Failed None
              {["error" := JStr "Missing Square payment ID"]})
     else
       let* now := Date_now in
       let idempotencyKey :=
         code order +:+ "-refund-" +:+ tpl_ID (Payment.id payment)
         +:+ "-" +:+ pretty now in
       let* promise :=
         client_refunds_refundPayment client
           (RefundPaymentRequest.mk idempotencyKey (default "" squarePaymentId)
              {| amount := amount; currency := currencyCode order |}
              (or_else (RefundOrderInput.reason input)
                 "Customer refund request")) in
       let* response :=
         await (withTimeout promise (Some 30000) (Some "Square refund timeout")) in
       let refund := response in
       match refund with
       | Some rf =>
           if bool_decide (SqRefund.status rf = Some "COMPLETED")
              || bool_decide (SqRefund.status rf = Some "PENDING") then
             let* t := Date_now in
             Logger LInfo
               ("Refund processed: Order " +:+ code order +:+ ", RefundID "
                +:+ tpl (SqRefund.id rf) +:+ ", Amount " +:+ pretty amount
                +:+ ", " +:+ pretty (t - startTime) +:+ "ms") loggerCtx ;;;
             let* refundedAt := new_Date_toISOString in
             ret (CreateRefundResult.mk Settled
                    (Some (or_else (SqRefund.id rf) ""))
                    (<["squareRefundId" := js_of_str (SqRefund.id rf)]>
                     (<["status" := js_of_str (SqRefund.status rf)]>
                      (<["refundedAt" := JStr refundedAt]> ∅))))
           else
             ret (CreateRefundResult.mk Failed None
                    {["error" := JStr ("Refund failed with status: "
                                       +:+ tpl (SqRefund.status rf))]})
       | None =>
           ret (CreateRefundResult.mk Failed None
                  {["error" := JStr ("Refund failed with status: "
                                     +:+ tpl None)]})
       end)
    (λ error,
       let* t := Date_now in
       Logger LError
         ("Refund failed for order " +:+ code order +:+ ": "
          +:+ or_else (message error) "Unknown error"
          +:+ " (" +:+ pretty (t - startTime) +:+ "ms)") loggerCtx ;;;
       ret (CreateRefundResult.mk Failed None
              {["error" := JStr (or_else (message error) "Refund failed")]})).

End Handler.

(** ** Sample inputs *)

Module Sample.
Definition authorized : SqPayment.t :=
  SqPayment.mk (Some "pay_1") (Some "AUTHORIZED") None None.
Definition completed : SqPayment.t :=
  SqPayment.mk (Some "pay_1") (Some "COMPLETED") None None.
Definition pending_refund : SqRefund.t :=
  SqRefund.mk (Some "ref_1") (Some "PENDING").

(** A processor stub answering after 10 ms. *)
Definition stub : Host :=
  {| clock := λ k, 1700000000000 + Z.of_nat k;
     toISOString := λ _, "2023-11-14T22:13:20.000Z";
     payments_create := λ _ _ _, Settles 10 (inl (Some authorized));
     payments_complete := λ _ _ _, Settles 10 (inl (Some completed));
     refunds_refundPayment := λ _ _ _, Settles 10 (inl (Some pending_refund)) |}.


Definition order : Order :=
  {| code := "ORD1"; total := 1000; currencyCode := "USD" |}.
Definition options : SquarePaymentHandlerOptions :=
  {| accessToken := "tok"; environment := "sandbox"; locationId := "L1" |}.
Definition card : gmap string jsval := {["sourceId" := JStr "cnon:card"]}.
Definition payment : Payment.t := Payment.mk (IdNum 7) (Some "pay_1").
Definition unpaid : Payment.t := Payment.mk (IdNum 7) None.
Definition input : RefundOrderInput.t := RefundOrderInput.mk (Some "damaged").

(** The world after [SquarePlugin.init(options)] on a fresh module. *)
Definition ready : World := snd (init options initial_world).
End Sample.

(** ** Vocabulary of the properties *)

(** Credentials are stored, or a client is already cached. *)
Definition configured (w : World) : Prop :=
  is_Some (squareClient w) ∨ is_Some (squareOptions w).

(** A payment record without a usable transaction id: the field is absent
    or the empty string, the two values [!payment.transactionId] accepts. *)
Definition lacks_transaction_id (payment : Payment.t) : Prop :=
  Payment.transactionId payment = None ∨ Payment.transactionId payment = Some "".


(** [n] successive uses of the accessor, collecting what it returns. *)
Fixpoint getSquareClient_times (n : nat) : M (list SquareClient.t) :=
  match n with
  | O => ret []
  | S n =>
      let* c := getSquareClient in
      let* cs := getSquareClient_times n in
      ret (c :: cs)
  end.

(** What the process can do to the module, one operation at a time. *)
Inductive Op :=
| OpInit (options : SquarePaymentHandlerOptions)
| OpCreatePayment (order : Order) (amount : Z) (metadata : gmap string jsval)
| OpSettlePayment (order : Order) (payment : Payment.t)
| OpCreateRefund (input : RefundOrderInput.t) (amount : Z) (order : Order)
    (payment : Payment.t).

Definition step (host : Host) (w : World) (op : Op) : World :=
  match op with
  | OpInit options => snd (init options w)
  | OpCreatePayment order amount metadata =>
      snd (createPayment host order amount metadata w)
  | OpSettlePayment order payment => snd (settlePayment host order payment w)
  | OpCreateRefund input amount order payment =>
      snd (createRefund host input amount order payment w)
  end.

Definition run (host : Host) (ops : list Op) (w : World) : World :=
  foldl (step host) w ops.

Definition is_init (op : Op) : bool :=
  match op with OpInit _ => true | _ => false end.

(** The number of credential sets a sequence of operations stores. *)
Definition credential_sets (ops : list Op) : nat :=
  length (List.filter is_init ops).

(** The part of the world the accessor works on. *)
Definition config (w : World)
  : option SquarePaymentHandlerOptions * option SquareClient.t * nat :=
  (squareOptions w, squareClient w, constructed w).

(** Cached clients were constructed earlier. *)
Definition cache_ok (w : World) : Prop :=
  ∀ c, squareClient w = Some c → (SquareClient.ref c < constructed w)%nat.

(** The budget invariant: every client constructed so far is paid for by a
    credential set stored so far, and a stored set that has no client yet
    still has its one construction to come. *)
Definition within_budget (w : World) (k : nat) : Prop :=
  match squareClient w, squareOptions w with
  | None, Some _ => (S (constructed w) ≤ k)%nat
  | _, _ => (constructed w ≤ k)%nat
  end.

(** The cached client is the one the stored credentials describe, and it
    was constructed earlier. *)
Definition coherent (w : World) : Prop :=
  ∀ c, squareClient w = Some c →
    ∃ o, squareOptions w = Some o
      ∧ SquareClient.token c = accessToken o
      ∧ SquareClient.environment c
        = (if bool_decide (environment o = "production")
           then Production else Sandbox)
      ∧ (SquareClient.ref c < constructed w)%nat.

(** A processor that answers every request, but never with success. *)
Definition refusing : Host :=
  {| clock := clock Sample.stub; toISOString := toISOString Sample.stub;
     payments_create := λ _ _ _, Settles 10 (inl None);
     payments_complete := λ _ _ _,
       Settles 10 (inl (Some (SqPayment.mk (Some "pay_1") (Some "CANCELED")
                                None None)));
     refunds_refundPayment := λ _ _ _,
       Settles 10 (inl (Some (SqRefund.mk (Some "ref_1") (Some "REJECTED")))) |}.

(** Whether a character occurs in a string. *)
Fixpoint has_char (ch : Ascii.ascii) (s : string) : bool :=
  match s with
  | EmptyString => false
  | String a s' => bool_decide (a = ch) || has_char ch s'
  end.

(** * Properties *)

(** ** Running the accessors *)

Lemma getSquareOptions_none w :
  squareOptions w = None →
  getSquareOptions w = (Throw (new_Error not_configured), w).
Proof. intros H. unfold getSquareOptions. by rewrite H. Qed.

Lemma getSquareOptions_some w o :
  squareOptions w = Some o → getSquareOptions w = (Normal o, w).
Proof. intros H. unfold getSquareOptions. by rewrite H. Qed.

Lemma getSquareClient_cached w c :
  squareClient w = Some c → getSquareClient w = (Normal c, w).
Proof. intros H. unfold getSquareClient. by rewrite H. Qed.

Lemma getSquareClient_unconfigured w :
  squareClient w = None → squareOptions w = None →
  getSquareClient w = (Throw (new_Error not_configured), w).
Proof.
  intros Hc Ho. unfold getSquareClient, bind. rewrite Hc.
  by rewrite (getSquareOptions_none _ Ho).
Qed.

Lemma getSquareClient_fresh w o :
  squareClient w = None → squareOptions w = Some o →
  let c := SquareClient.mk (constructed w) (accessToken o)
             (if bool_decide (environment o = "production")
              then Production else Sandbox) in
  getSquareClient w = (Normal c, set_client (Some c) (count_client w)).
Proof.
  intros Hc Ho. unfold getSquareClient, bind. rewrite Hc.
  by rewrite (getSquareOptions_some _ _ Ho).
Qed.

(** What the accessor leaves alone. *)
Lemma getSquareClient_frame w r w1 :
  getSquareClient w = (r, w1) →
  calls w1 = calls w ∧ clock_reads w1 = clock_reads w ∧ logs w1 = logs w
  ∧ squareOptions w1 = squareOptions w.
Proof.
  destruct (squareClient w) as [c|] eqn:Hc.
  - rewrite (getSquareClient_cached _ _ Hc). by intros [= <- <-].
  - destruct (squareOptions w) as [o|] eqn:Ho.
    + rewrite (getSquareClient_fresh _ _ Hc Ho). by intros [= <- <-].
    + rewrite (getSquareClient_unconfigured _ Hc Ho). by intros [= <- <-].
Qed.

(** [id || ''] gives the id whenever there is one. *)
Lemma or_else_empty (i : string) : or_else (Some i) "" = i.
Proof. unfold or_else. by case_bool_decide. Qed.

(** Reading the clock commutes with the accessor. *)
Lemma getSquareClient_tick w :
  getSquareClient (tick w)
  = (fst (getSquareClient w), tick (snd (getSquareClient w))).
Proof.
  destruct (squareClient w) as [c|] eqn:Hc.
  - rewrite (getSquareClient_cached w c), (getSquareClient_cached (tick w) c);
      done.
  - destruct (squareOptions w) as [o|] eqn:Ho.
    + rewrite (getSquareClient_fresh w o), (getSquareClient_fresh (tick w) o);
        done.
    + rewrite (getSquareClient_unconfigured w),
        (getSquareClient_unconfigured (tick w)); done.
Qed.

Lemma getSquareClient_no_hang w w' : getSquareClient w ≠ (Hang, w').
Proof.
  destruct (squareClient w) as [c|] eqn:Hc.
  - rewrite (getSquareClient_cached _ _ Hc). congruence.
  - destruct (squareOptions w) as [o|] eqn:Ho.
    + rewrite (getSquareClient_fresh _ _ Hc Ho). congruence.
    + rewrite (getSquareClient_unconfigured _ Hc Ho). congruence.
Qed.

(** Unfolds a handler down to its first call of the client accessor. *)
Ltac enter_handler :=
  unfold createPayment, settlePayment, createRefund;
  unfold bind at 1; unfold Date_now at 1;
  unfold try_catch; unfold bind at 1.

(** ** Before initialization *)

(** C1 (as amended).  Before initialization the client accessor throws the
    configuration error, and it does so before any network activity; but
    each payment operation calls the accessor inside its own [try], so the
    error is caught and comes back as a structured failure carrying the
    configuration message: [Declined] from createPayment, [success = false]
    from settlePayment, [Failed] from createRefund.  Nothing is thrown to
    the host and no processor call is made. *)
Theorem unconfigured_operations_fail_structurally
    (host : Host) (order : Order) (amount : Z) (metadata : gmap string jsval)
    (payment : Payment.t) (input : RefundOrderInput.t) (w : World) :
  squareOptions w = None → squareClient w = None →
  getSquareClient w = (Throw (new_Error not_configured), w)
  ∧ (∃ r w', createPayment host order amount metadata w = (Normal r, w')
       ∧ CreatePaymentResult.state r = Declined
       ∧ CreatePaymentResult.errorMessage r = Some not_configured
       ∧ calls w' = calls w)
  ∧ (∃ r w', settlePayment host order payment w = (Normal r, w')
       ∧ SettlePaymentResult.success r = false
       ∧ SettlePaymentResult.errorMessage r = Some not_configured
       ∧ calls w' = calls w)
  ∧ (∃ r w', createRefund host input amount order payment w = (Normal r, w')
       ∧ CreateRefundResult.state r = Failed
       ∧ CreateRefundResult.metadata r !! "error" = Some (JStr not_configured)
       ∧ calls w' = calls w).
Proof.
  intros Ho Hc. split; [by apply getSquareClient_unconfigured|].
  repeat split.
  all: enter_handler;
    rewrite getSquareClient_unconfigured by done;
    simpl; eauto 10.
Qed.

Lemma unconfigured_operations_witness :
  squareOptions initial_world = None ∧ squareClient initial_world = None
  ∧ ∃ r w',
      settlePayment Sample.stub Sample.order Sample.payment initial_world
        = (Normal r, w')
      ∧ SettlePaymentResult.success r = false
      ∧ SettlePaymentResult.errorMessage r = Some not_configured
      ∧ calls w' = calls initial_world.
Proof.
  split; [reflexivity|]. split; [reflexivity|].
  apply (unconfigured_operations_fail_structurally
           Sample.stub Sample.order 1000 Sample.card Sample.payment
           Sample.input initial_world eq_refl eq_refl).
Defined.

(** C1 (as stated) fails: on a freshly loaded module, createPayment with a
    card token does not throw; it returns a [Declined] result whose message
    is the configuration error. *)
Lemma createPayment_before_init_returns_declined :
  fst (createPayment Sample.stub Sample.order 1000 Sample.card initial_world)
    = Normal (CreatePaymentResult.mk 1000 Declined None (Some not_configured)
                {["error" := JStr not_configured]})
  ∧ ∀ e, fst (createPayment Sample.stub Sample.order 1000 Sample.card
                initial_world) ≠ Throw e.
Proof. split; [vm_compute; reflexivity | intros e; vm_compute; discriminate]. Qed.

(** ** Missing token, missing transaction id *)

(** C2.  A createPayment call whose metadata has neither a [sourceId] nor a
    [token] field is answered [Declined] with a non-empty error message and
    the processor is not called; once credentials are configured the message
    is the missing-token one. *)
Theorem createPayment_without_token_declined
    (host : Host) (order : Order) (amount : Z) (metadata : gmap string jsval)
    (w : World) :
  metadata !! "sourceId" = None → metadata !! "token" = None →
  ∃ r w', createPayment host order amount metadata w = (Normal r, w')
    ∧ CreatePaymentResult.state r = Declined
    ∧ (∃ msg, CreatePaymentResult.errorMessage r = Some msg ∧ msg ≠ "")
    ∧ calls w' = calls w
    ∧ (configured w →
       CreatePaymentResult.errorMessage r
         = Some "Missing Square payment token (sourceId) from frontend").
Proof.
  intros Hs Ht. enter_handler.
  unfold prop. rewrite Hs, Ht. simpl.
  destruct (squareClient w) as [c|] eqn:Hc.
  - rewrite (getSquareClient_cached _ c) by done. simpl.
    do 2 eexists. repeat split; eauto.
  - destruct (squareOptions w) as [o|] eqn:Ho.
    + rewrite (getSquareClient_fresh _ o) by done. simpl.
      do 2 eexists. repeat split; eauto.
    + rewrite getSquareClient_unconfigured by done. simpl.
      do 2 eexists. repeat split; eauto.
      intros [[? ?]|[? ?]]; congruence.
Qed.

Lemma createPayment_without_token_witness :
  ∃ r w', createPayment Sample.stub Sample.order 1000 ∅ Sample.ready
            = (Normal r, w')
    ∧ CreatePaymentResult.state r = Declined
    ∧ CreatePaymentResult.errorMessage r
        = Some "Missing Square payment token (sourceId) from frontend"
    ∧ calls w' = [].
Proof.
  destruct (createPayment_without_token_declined
              Sample.stub Sample.order 1000 ∅ Sample.ready
              (lookup_empty _) (lookup_empty _))
    as (r & w' & E & Hst & _ & Hcalls & Hmsg).
  exists r, w'. repeat split; try assumption.
  apply Hmsg. right. vm_compute. eauto.
Defined.

Lemma lacks_transaction_id_falsy payment :
  lacks_transaction_id payment →
  falsy_str (Payment.transactionId payment) = true.
Proof. by intros [-> | ->]. Qed.

Lemma getSquareClient_calls_eq w r w1 :
  getSquareClient w = (r, w1) → calls w1 = calls w.
Proof. intros E. by destruct (getSquareClient_frame _ _ _ E). Qed.

(** C3.  settlePayment on a payment record without a transaction id returns
    [success = false], createRefund on such a record returns [Failed], and
    neither calls the processor. *)
Theorem missing_transaction_id_fails
    (host : Host) (input : RefundOrderInput.t) (amount : Z) (order : Order)
    (payment : Payment.t) (w : World) :
  lacks_transaction_id payment →
  (∃ r w', settlePayment host order payment w = (Normal r, w')
     ∧ SettlePaymentResult.success r = false
     ∧ calls w' = calls w)
  ∧ (∃ r w', createRefund host input amount order payment w = (Normal r, w')
       ∧ CreateRefundResult.state r = Failed
       ∧ calls w' = calls w).
Proof.
  intros Hid%lacks_transaction_id_falsy.
  split; enter_handler; rewrite getSquareClient_tick, Hid;
    destruct (getSquareClient w) as [[c|e|] w1] eqn:E; simpl;
    try (by destruct (getSquareClient_no_hang _ _ E));
    apply getSquareClient_calls_eq in E; eauto 10.
Qed.

Lemma missing_transaction_id_witness :
  lacks_transaction_id Sample.unpaid
  ∧ ∃ r w',
      createRefund Sample.stub Sample.input 500 Sample.order Sample.unpaid
        Sample.ready = (Normal r, w')
      ∧ CreateRefundResult.state r = Failed
      ∧ calls w' = calls Sample.ready.
Proof.
  assert (H : lacks_transaction_id Sample.unpaid) by (left; reflexivity).
  split; [exact H|].
  apply (missing_transaction_id_fails Sample.stub Sample.input 500 Sample.order
           Sample.unpaid Sample.ready H).
Defined.

(** ** Classification of the processor's answer *)

(** The race against the timer, as [await] sees it. *)
Lemma withTimeout_in_time {A} (d : Z) (o : A + JsError) msg :
  d ≤ 30000 → withTimeout (Settles d o) (Some 30000) msg = Settles d o.
Proof.
  intros Hd. unfold withTimeout, reject_after, setTimeout_delay, Promise_race.
  simpl. destruct (Z.leb_spec d 30000); [done | lia].
Qed.


(** C4.  settlePayment with a transaction id sends exactly one
    complete-payment request.  When the processor answers in time with a
    payment object whose status is exactly [COMPLETED] the result has
    [success = true]; with any other status, with no payment object, or when
    the call throws, the result has [success = false] and carries the status
    string (printed [undefined] when absent) or the error message. *)
Theorem settlePayment_classifies_answer
    (host : Host) (order : Order) (payment : Payment.t) (tid : string)
    (w w1 : World) (client : SquareClient.t) :
  Payment.transactionId payment = Some tid → tid ≠ "" →
  getSquareClient w = (Normal client, w1) →
  let request := CompletePaymentRequest.mk tid in
  let answer := payments_complete host (calls w) client request in
  ∃ r w', settlePayment host order payment w = (Normal r, w')
    ∧ calls w' = (calls w ++ [Build_ApiCall client (PaymentsComplete request)])%list
    ∧ (∀ d cp, answer = Settles d (inl (Some cp)) → d < 30000 →
         SqPayment.status cp = Some "COMPLETED" →
         SettlePaymentResult.success r = true
         ∧ SettlePaymentResult.errorMessage r = None
         ∧ ∃ m, SettlePaymentResult.metadata r = Some m
                ∧ m !! "status" = Some (JStr "COMPLETED")
                ∧ m !! "squarePaymentId" = Some (js_of_str (SqPayment.id cp)))
    ∧ (∀ d cp, answer = Settles d (inl (Some cp)) → d < 30000 →
         SqPayment.status cp ≠ Some "COMPLETED" →
         SettlePaymentResult.success r = false
         ∧ SettlePaymentResult.errorMessage r
             = Some ("Square payment not completed. Status: "
                     +:+ tpl (SqPayment.status cp))
         ∧ SettlePaymentResult.metadata r
             = Some {["status" := js_of_str (SqPayment.status cp)]})
    ∧ (∀ d, answer = Settles d (inl None) → d < 30000 →
         SettlePaymentResult.success r = false
         ∧ SettlePaymentResult.errorMessage r
             = Some "Square payment not completed. Status: undefined"
         ∧ SettlePaymentResult.metadata r = Some {["status" := JUndefined]})
    ∧ (∀ d e, answer = Settles d (inr e) → d < 30000 →
         SettlePaymentResult.success r = false
         ∧ SettlePaymentResult.errorMessage r
             = Some (or_else (message e) "Failed to settle Square payment")
         ∧ SettlePaymentResult.metadata r
             = Some {["error" := js_of_str (message e)]}).
Proof.
  intros Htid Hne E request answer.
  pose proof (getSquareClient_calls_eq _ _ _ E) as Hcalls.
  enter_handler. rewrite getSquareClient_tick, E, Htid. simpl.
  rewrite bool_decide_eq_false_2 by done.
  unfold bind, client_payments_complete, send. simpl. rewrite Hcalls.
  fold request. fold answer. clearbody answer.
  unfold withTimeout, reject_after, setTimeout_delay, Promise_race, await. simpl.
  destruct answer as [d [[cp|]|e]|]; [destruct (Z.leb_spec d 30000)..|];
    try destruct (decide (SqPayment.status cp = Some "COMPLETED")) as [Hs|Hs];
    rewrite ?(bool_decide_eq_true_2 _ Hs), ?(bool_decide_eq_false_2 _ Hs);
    simpl;
    (do 2 eexists; split; [reflexivity|]; split; [simpl; by rewrite Hcalls|]);
    repeat split; intros; simplify_eq; try lia; try done.
  all: eexists; split; [reflexivity|]; rewrite Hs; split; reflexivity.
Qed.

Lemma settlePayment_classifies_answer_witness :
  ∃ r w',
    settlePayment Sample.stub Sample.order Sample.payment Sample.ready
      = (Normal r, w')
    ∧ SettlePaymentResult.success r = true.
Proof.
  destruct (settlePayment_classifies_answer
              Sample.stub Sample.order Sample.payment "pay_1" Sample.ready
              (snd (getSquareClient Sample.ready))
              (SquareClient.mk 0 "tok" Sandbox))
    as (r & w' & E & _ & Hok & _).
  - reflexivity.
  - discriminate.
  - reflexivity.
  - exists r, w'. split; [exact E|].
    apply (Hok 10 Sample.completed); [reflexivity | lia | reflexivity].
Defined.

(** C5.  createRefund with a transaction id sends exactly one refund
    request.  When the processor answers in time with a refund object whose
    status is [COMPLETED] or [PENDING] the result is [Settled] and its
    transaction id is the refund id (the empty string if the refund has
    none); with any other status, with no refund object, or when the call
    throws, the result is [Failed] and its metadata carries the status or
    the error message. *)
Theorem createRefund_classifies_answer
    (host : Host) (input : RefundOrderInput.t) (amount : Z) (order : Order)
    (payment : Payment.t) (tid : string) (w w1 : World)
    (client : SquareClient.t) :
  Payment.transactionId payment = Some tid → tid ≠ "" →
  getSquareClient w = (Normal client, w1) →
  let request :=
    RefundPaymentRequest.mk
      (code order +:+ "-refund-" +:+ tpl_ID (Payment.id payment) +:+ "-"
       +:+ pretty (clock host (S (clock_reads w))))
      tid {| amount := amount; currency := currencyCode order |}
      (or_else (RefundOrderInput.reason input) "Customer refund request") in
  let answer := refunds_refundPayment host (calls w) client request in
  ∃ r w', createRefund host input amount order payment w = (Normal r, w')
    ∧ calls w'
      = (calls w ++ [Build_ApiCall client (RefundsRefundPayment request)])%list
    ∧ (∀ d rf, answer = Settles d (inl (Some rf)) → d < 30000 →
         SqRefund.status rf = Some "COMPLETED"
         ∨ SqRefund.status rf = Some "PENDING" →
         CreateRefundResult.state r = Settled
         ∧ CreateRefundResult.transactionId r = Some (or_else (SqRefund.id rf) "")
         ∧ (∀ i, SqRefund.id rf = Some i →
                 CreateRefundResult.transactionId r = Some i)
         ∧ CreateRefundResult.metadata r !! "squareRefundId"
             = Some (js_of_str (SqRefund.id rf))
         ∧ CreateRefundResult.metadata r !! "status"
             = Some (js_of_str (SqRefund.status rf)))
    ∧ (∀ d rf, answer = Settles d (inl (Some rf)) → d < 30000 →
         SqRefund.status rf ≠ Some "COMPLETED" →
         SqRefund.status rf ≠ Some "PENDING" →
         CreateRefundResult.state r = Failed
         ∧ CreateRefundResult.metadata r
             = {["error" := JStr ("Refund failed with status: "
                                  +:+ tpl (SqRefund.status rf))]})
    ∧ (∀ d, answer = Settles d (inl None) → d < 30000 →
         CreateRefundResult.state r = Failed
         ∧ CreateRefundResult.metadata r
             = {["error" := JStr "Refund failed with status: undefined"]})
    ∧ (∀ d e, answer = Settles d (inr e) → d < 30000 →
         CreateRefundResult.state r = Failed
         ∧ CreateRefundResult.metadata r
             = {["error" := JStr (or_else (message e) "Refund failed")]}).
Proof.
  intros Htid Hne E request answer.
  destruct (getSquareClient_frame _ _ _ E) as (Hcalls & Hclock & _ & _).
  enter_handler. rewrite getSquareClient_tick, E, Htid. simpl.
  rewrite bool_decide_eq_false_2 by done.
  unfold bind, client_refunds_refundPayment, send. simpl.
  rewrite Hcalls, Hclock. fold request. fold answer. clearbody answer.
  unfold withTimeout, reject_after, setTimeout_delay, Promise_race, await. simpl.
  destruct answer as [d [[rf|]|e]|]; [destruct (Z.leb_spec d 30000)..|];
    repeat case_bool_decide; simpl;
    (do 2 eexists; split; [reflexivity|]; split; [simpl; by rewrite Hcalls|]);
    repeat split; intros; simplify_eq; try lia; try done;
    try (match goal with H : _ ∨ _ |- _ => destruct H; congruence end).
  all: simpl; match goal with H : SqRefund.id _ = Some _ |- _ => rewrite H end;
    by rewrite or_else_empty.
Qed.

Lemma createRefund_classifies_answer_witness :
  ∃ r w',
    createRefund Sample.stub Sample.input 500 Sample.order Sample.payment
      Sample.ready = (Normal r, w')
    ∧ CreateRefundResult.state r = Settled
    ∧ CreateRefundResult.transactionId r = Some "ref_1".
Proof.
  destruct (createRefund_classifies_answer
              Sample.stub Sample.input 500 Sample.order Sample.payment "pay_1"
              Sample.ready (snd (getSquareClient Sample.ready))
              (SquareClient.mk 0 "tok" Sandbox))
    as (r & w' & E & _ & Hok & _).
  - reflexivity.
  - discriminate.
  - reflexivity.
  - exists r, w'. split; [exact E|].
    destruct (Hok 10 Sample.pending_refund) as (Hst & _ & Hid & _);
      [reflexivity | lia | right; reflexivity |].
    split; [exact Hst | apply Hid; reflexivity].
Defined.


(** ** The timeout wrapper *)










(** ** The requests that reach the processor *)

(** createPayment makes at most one processor call, and the request it
    sends is determined by its arguments and the second clock reading of the
    call (the first one is [startTime]). *)
Lemma createPayment_calls host order amount metadata w r w' :
  createPayment host order amount metadata w = (r, w') →
  calls w' = calls w
  ∨ ∃ c req,
      calls w' = (calls w ++ [Build_ApiCall c (PaymentsCreate req)])%list
      ∧ CreatePaymentRequest.sourceId req
        = js_or (prop metadata "sourceId") (prop metadata "token")
      ∧ CreatePaymentRequest.idempotencyKey req
        = code order +:+ "-create-" +:+ pretty (clock host (S (clock_reads w)))
      ∧ CreatePaymentRequest.amountMoney req
        = {| amount := amount; currency := currencyCode order |}
      ∧ CreatePaymentRequest.autocomplete req = false.
Proof.
  unfold createPayment, try_catch, bind, Date_now. simpl.
  rewrite getSquareClient_tick.
  destruct (getSquareClient w) as [[c|e|] w1] eqn:E;
    destruct (getSquareClient_frame _ _ _ E) as (Hcalls & Hclock & _ & _);
    simpl.
  2, 3: intros [= <- <-]; left; simpl; congruence.
  destruct (truthy _); simpl.
  2: { intros [= <- <-]. left. simpl. congruence. }
  unfold getSquareOptions. simpl.
  destruct (squareOptions w1) as [o|]; simpl.
  2: { intros [= <- <-]. left. simpl. congruence. }
  unfold withTimeout, reject_after, setTimeout_delay, Promise_race, await. simpl.
  intros Hrun. right.
  exists c. eexists (CreatePaymentRequest.mk _ _ _ _ _ _ _).
  rewrite <- Hcalls, <- Hclock.
  split; [|repeat split].
  destruct (payments_create host _ _ _) as [d [[p|]|e]|];
    [destruct (d <=? 30000)..|]; simpl in Hrun;
    injection Hrun as <- <-; reflexivity.
Qed.

(** The same for createRefund. *)
Lemma createRefund_calls host input amount order payment w r w' :
  createRefund host input amount order payment w = (r, w') →
  calls w' = calls w
  ∨ ∃ c req,
      calls w' = (calls w ++ [Build_ApiCall c (RefundsRefundPayment req)])%list
      ∧ RefundPaymentRequest.idempotencyKey req
        = code order +:+ "-refund-" +:+ tpl_ID (Payment.id payment) +:+ "-"
          +:+ pretty (clock host (S (clock_reads w)))
      ∧ Some (RefundPaymentRequest.paymentId req)
        = Payment.transactionId payment
      ∧ RefundPaymentRequest.amountMoney req
        = {| amount := amount; currency := currencyCode order |}.
Proof.
  unfold createRefund, try_catch, bind, Date_now. simpl.
  rewrite getSquareClient_tick.
  destruct (getSquareClient w) as [[c|e|] w1] eqn:E;
    destruct (getSquareClient_frame _ _ _ E) as (Hcalls & Hclock & _ & _);
    simpl.
  2, 3: intros [= <- <-]; left; simpl; congruence.
  destruct (Payment.transactionId payment) as [tid|]; simpl.
  2: { intros [= <- <-]. left. simpl. congruence. }
  case_bool_decide; simpl.
  { intros [= <- <-]. left. simpl. congruence. }
  unfold withTimeout, reject_after, setTimeout_delay, Promise_race, await. simpl.
  intros Hrun. right.
  exists c. eexists (RefundPaymentRequest.mk _ _ _ _).
  rewrite <- Hcalls, <- Hclock.
  split; [|repeat split].
  destruct (refunds_refundPayment host _ _ _) as [d [[rf|]|e]|];
    [destruct (d <=? 30000)..|]; repeat case_bool_decide; simpl in Hrun;
    injection Hrun as <- <-; reflexivity.
Qed.

(** C7.  Whenever createPayment reaches the processor, the idempotency key
    it sends is [<order code>-create-<now>], and whenever createRefund
    reaches the processor the key is [<order code>-refund-<payment id>-<now>],
    where [now] is the clock reading taken when the key is built (the second
    reading of the call, after [startTime]).  Keys built for the same order
    (and payment) at different times are different. *)
Theorem idempotency_key_derivation :
  (∀ host order amount metadata w r w',
     createPayment host order amount metadata w = (r, w') →
     calls w' ≠ calls w →
     ∃ c req,
       calls w' = (calls w ++ [Build_ApiCall c (PaymentsCreate req)])%list
       ∧ CreatePaymentRequest.idempotencyKey req
         = code order +:+ "-create-"
           +:+ pretty (clock host (S (clock_reads w))))
  ∧ (∀ host input amount order payment w r w',
       createRefund host input amount order payment w = (r, w') →
       calls w' ≠ calls w →
       ∃ c req,
         calls w'
         = (calls w ++ [Build_ApiCall c (RefundsRefundPayment req)])%list
         ∧ RefundPaymentRequest.idempotencyKey req
           = code order +:+ "-refund-" +:+ tpl_ID (Payment.id payment) +:+ "-"
             +:+ pretty (clock host (S (clock_reads w))))
  ∧ (∀ (orderCode : string) (t1 t2 : Z), t1 ≠ t2 →
       orderCode +:+ "-create-" +:+ pretty t1
       ≠ orderCode +:+ "-create-" +:+ pretty t2)
  ∧ (∀ (orderCode : string) (paymentId : ID) (t1 t2 : Z), t1 ≠ t2 →
       orderCode +:+ "-refund-" +:+ tpl_ID paymentId +:+ "-" +:+ pretty t1
       ≠ orderCode +:+ "-refund-" +:+ tpl_ID paymentId +:+ "-" +:+ pretty t2).
Proof.
  split; [|split; [|split]].
  - intros host order amount metadata w r w' Hrun Hreach.
    destruct (createPayment_calls _ _ _ _ _ _ _ Hrun)
      as [Hsame | (c & req & Hc & _ & Hkey & _)]; [done|eauto].
  - intros host input amount order payment w r w' Hrun Hreach.
    destruct (createRefund_calls _ _ _ _ _ _ _ _ Hrun)
      as [Hsame | (c & req & Hc & Hkey & _)]; [done|eauto].
  - intros orderCode t1 t2 Hne Heq. apply Hne.
    by repeat (apply (inj (String.append _)) in Heq); apply (inj pretty).
  - intros orderCode paymentId t1 t2 Hne Heq. apply Hne.
    by repeat (apply (inj (String.append _)) in Heq); apply (inj pretty).
Qed.

Lemma idempotency_key_derivation_witness :
  ∃ c req,
    calls (snd (createPayment Sample.stub Sample.order 1000 Sample.card
                  Sample.ready))
    = [Build_ApiCall c (PaymentsCreate req)]
    ∧ CreatePaymentRequest.idempotencyKey req = "ORD1-create-1700000000001"
    ∧ "ORD1" +:+ "-create-" +:+ pretty 1700000000001
      ≠ "ORD1" +:+ "-create-" +:+ pretty 1700000000002.
Proof.
  destruct idempotency_key_derivation as (Hcreate & _ & Hdistinct & _).
  destruct (Hcreate Sample.stub Sample.order 1000 Sample.card Sample.ready
              (fst (createPayment Sample.stub Sample.order 1000 Sample.card
                      Sample.ready))
              (snd (createPayment Sample.stub Sample.order 1000 Sample.card
                      Sample.ready)))
    as (c & req & Hcalls & Hkey).
  - apply surjective_pairing.
  - vm_compute. discriminate.
  - exists c, req. split; [exact Hcalls|]. split; [exact Hkey|].
    apply Hdistinct. lia.
Defined.

(** ** The amount reported back *)

(** createPayment always returns a result, and its [amount] is the order's
    total. *)
Lemma createPayment_returns_total host order amount metadata w :
  ∃ r w', createPayment host order amount metadata w = (Normal r, w')
    ∧ CreatePaymentResult.amount r = total order.
Proof.
  unfold createPayment, try_catch, bind, Date_now. simpl.
  rewrite getSquareClient_tick.
  destruct (getSquareClient w) as [[c|e|] w1] eqn:E; simpl;
    [|by eauto|by destruct (getSquareClient_no_hang _ _ E)].
  destruct (truthy _); simpl; eauto.
  unfold getSquareOptions. simpl.
  destruct (squareOptions w1) as [o|]; simpl; eauto.
  unfold withTimeout, reject_after, setTimeout_delay, Promise_race, await. simpl.
  destruct (payments_create host _ _ _) as [d [[p|]|e]|];
    [destruct (d <=? 30000)..|]; simpl; eauto.
Qed.

(** C10.  Whatever branch createPayment takes, the [amount] of its result is
    [order.total]; the charge request, when one is sent, carries the
    [amount] argument instead.  So when the two differ, the result reports
    an amount other than the one the processor was asked to charge. *)
Theorem createPayment_reports_order_total
    (host : Host) (order : Order) (amount : Z) (metadata : gmap string jsval)
    (w : World) :
  ∃ r w', createPayment host order amount metadata w = (Normal r, w')
    ∧ CreatePaymentResult.amount r = total order
    ∧ (calls w' = calls w
       ∨ ∃ c req,
           calls w' = (calls w ++ [Build_ApiCall c (PaymentsCreate req)])%list
           ∧ CreatePaymentRequest.amountMoney req
             = {| amount := amount; currency := currencyCode order |})
    ∧ (amount ≠ total order → CreatePaymentResult.amount r ≠ amount).
Proof.
  destruct (createPayment_returns_total host order amount metadata w)
    as (r & w' & Hrun & Htotal).
  exists r, w'. split; [exact Hrun|]. split; [exact Htotal|]. split.
  - destruct (createPayment_calls _ _ _ _ _ _ _ Hrun)
      as [Hsame | (c & req & Hc & _ & _ & Hmoney & _)]; eauto.
  - congruence.
Qed.

(** An authorization of 500 on an order whose total is 1000: the processor
    is asked for 500 and the result says 1000. *)
Lemma createPayment_reports_order_total_witness :
  ∃ r w' c req,
    createPayment Sample.stub Sample.order 500 Sample.card Sample.ready
      = (Normal r, w')
    ∧ calls w' = [Build_ApiCall c (PaymentsCreate req)]
    ∧ CreatePaymentRequest.amountMoney req
      = {| amount := 500; currency := "USD" |}
    ∧ CreatePaymentResult.state r = Authorized
    ∧ CreatePaymentResult.amount r = 1000
    ∧ CreatePaymentResult.amount r ≠ 500.
Proof.
  destruct (createPayment_reports_order_total Sample.stub Sample.order 500
              Sample.card Sample.ready)
    as (r & w' & Hrun & Htotal & [Hnone | (c & req & Hcalls & Hmoney)] & Hne).
  - exfalso. revert Hnone. injection Hrun as <- <-. vm_compute. discriminate.
  - exists r, w', c, req. split; [exact Hrun|]. split; [exact Hcalls|].
    split; [exact Hmoney|]. split; [by injection Hrun as <- <-|].
    split; [exact Htotal|]. apply Hne. vm_compute. discriminate.
Defined.

(** ** The cached client *)

(** A handler changes the configuration exactly as its one use of the
    accessor does. *)
Lemma createPayment_config host order amount metadata w :
  config (snd (createPayment host order amount metadata w))
  = config (snd (getSquareClient w)).
Proof.
  unfold createPayment, try_catch, bind, Date_now. simpl.
  rewrite getSquareClient_tick.
  destruct (getSquareClient w) as [[c|e|] w1]; simpl; try reflexivity.
  destruct (truthy _); simpl; try reflexivity.
  unfold getSquareOptions. simpl.
  destruct (squareOptions w1) as [o|]; simpl; try reflexivity.
  unfold withTimeout, reject_after, setTimeout_delay, Promise_race, await. simpl.
  destruct (payments_create host _ _ _) as [d [[p|]|e]|];
    [destruct (d <=? 30000)..|]; reflexivity.
Qed.

Lemma settlePayment_config host order payment w :
  config (snd (settlePayment host order payment w))
  = config (snd (getSquareClient w)).
Proof.
  unfold settlePayment, try_catch, bind, Date_now. simpl.
  rewrite getSquareClient_tick.
  destruct (getSquareClient w) as [[c|e|] w1]; simpl; try reflexivity.
  destruct (falsy_str _); simpl; try reflexivity.
  unfold withTimeout, reject_after, setTimeout_delay, Promise_race, await. simpl.
  destruct (payments_complete host _ _ _) as [d [[p|]|e]|];
    [destruct (d <=? 30000)..|]; repeat case_bool_decide; reflexivity.
Qed.

Lemma createRefund_config host input amount order payment w :
  config (snd (createRefund host input amount order payment w))
  = config (snd (getSquareClient w)).
Proof.
  unfold createRefund, try_catch, bind, Date_now. simpl.
  rewrite getSquareClient_tick.
  destruct (getSquareClient w) as [[c|e|] w1]; simpl; try reflexivity.
  destruct (falsy_str _); simpl; try reflexivity.
  unfold withTimeout, reject_after, setTimeout_delay, Promise_race, await. simpl.
  destruct (refunds_refundPayment host _ _ _) as [d [[p|]|e]|];
    [destruct (d <=? 30000)..|]; repeat case_bool_decide; reflexivity.
Qed.

Lemma within_budget_config w w' k :
  config w' = config w → within_budget w k → within_budget w' k.
Proof. unfold config, within_budget. by intros [= -> -> ->]. Qed.

Lemma within_budget_getSquareClient w k :
  within_budget w k → within_budget (snd (getSquareClient w)) k.
Proof.
  unfold within_budget.
  destruct (squareClient w) as [c|] eqn:Hc.
  - by rewrite (getSquareClient_cached _ _ Hc); simpl; rewrite Hc.
  - destruct (squareOptions w) as [o|] eqn:Ho.
    + by rewrite (getSquareClient_fresh _ _ Hc Ho).
    + by rewrite (getSquareClient_unconfigured _ Hc Ho); simpl; rewrite Hc, Ho.
Qed.

Lemma within_budget_step host w k op :
  within_budget w k →
  within_budget (step host w op) (if is_init op then S k else k).
Proof.
  intros Hw. destruct op; simpl.
  - unfold within_budget in *. simpl.
    destruct (squareClient w), (squareOptions w); lia.
  - eapply within_budget_config; [apply createPayment_config|].
    by apply within_budget_getSquareClient.
  - eapply within_budget_config; [apply settlePayment_config|].
    by apply within_budget_getSquareClient.
  - eapply within_budget_config; [apply createRefund_config|].
    by apply within_budget_getSquareClient.
Qed.

Lemma within_budget_run host ops w k :
  within_budget w k →
  within_budget (run host ops w) (k + credential_sets ops).
Proof.
  unfold run, credential_sets. revert w k.
  induction ops as [|op ops IH]; intros w k Hw; simpl.
  - by rewrite Nat.add_0_r.
  - apply (within_budget_step host _ _ op) in Hw.
    apply IH in Hw. destruct (is_init op); simpl in *; [|done].
    by rewrite Nat.add_succ_r.
Qed.

Lemma within_budget_bound w k : within_budget w k → (constructed w ≤ k)%nat.
Proof.
  unfold within_budget. destruct (squareClient w), (squareOptions w); lia.
Qed.

Lemma getSquareClient_times_cached w c n :
  squareClient w = Some c →
  getSquareClient_times n w = (Normal (replicate n c), w).
Proof.
  intros Hc. induction n as [|n IH]; simpl; [done|].
  unfold bind. by rewrite (getSquareClient_cached _ _ Hc), IH.
Qed.

(** C8.  On first use the accessor constructs a client from the stored
    credentials, for the production endpoint exactly when the stored
    environment is [production] and for the sandbox otherwise, and caches
    it; later uses return that same client and change nothing.
    [setSquareOptions] replaces the credentials and empties the cache, so
    the next use constructs a new client, different from the old one, from
    the new credentials, and the uses after it return that one.  Over any
    sequence of initializations and payment operations on a freshly loaded
    module, no more clients are constructed than credential sets stored. *)
Theorem client_cached_per_credentials :
  (∀ w o, squareClient w = None → squareOptions w = Some o →
     ∃ c w', getSquareClient w = (Normal c, w')
       ∧ SquareClient.token c = accessToken o
       ∧ (SquareClient.environment c = Production
          ↔ environment o = "production")
       ∧ (SquareClient.environment c = Sandbox
          ↔ environment o ≠ "production")
       ∧ SquareClient.ref c = constructed w
       ∧ squareClient w' = Some c
       ∧ squareOptions w' = Some o
       ∧ constructed w' = S (constructed w))
  ∧ (∀ w c n, squareClient w = Some c →
       getSquareClient_times n w = (Normal (replicate n c), w))
  ∧ (∀ w o, ∃ w', setSquareOptions o w = (Normal (), w')
       ∧ squareOptions w' = Some o
       ∧ squareClient w' = None
       ∧ constructed w' = constructed w)
  ∧ (∀ w o n, cache_ok w →
       ∃ c w',
         getSquareClient_times (S n) (snd (setSquareOptions o w))
           = (Normal (replicate (S n) c), w')
         ∧ SquareClient.token c = accessToken o
         ∧ squareClient w ≠ Some c
         ∧ squareClient w' = Some c
         ∧ constructed w' = S (constructed w)
         ∧ cache_ok w')
  ∧ (∀ host ops,
       (constructed (run host ops initial_world) ≤ credential_sets ops)%nat).
Proof.
  split; [|split; [|split; [|split]]].
  - intros w o Hc Ho. do 2 eexists.
    split; [by apply getSquareClient_fresh|]. simpl.
    repeat split; try done; case_bool_decide; done.
  - intros w c n Hc. by apply getSquareClient_times_cached.
  - intros w o. eexists. by repeat split.
  - intros w o n Hok.
    set (w0 := snd (setSquareOptions o w)).
    set (c := SquareClient.mk (constructed w) (accessToken o)
                (if bool_decide (environment o = "production")
                 then Production else Sandbox)).
    exists c, (set_client (Some c) (count_client w0)).
    split; [|repeat split].
    + change (getSquareClient_times (S n) w0)
        with (bind getSquareClient
                (λ c, bind (getSquareClient_times n) (λ cs, ret (c :: cs)))
                w0).
      unfold bind at 1. rewrite (getSquareClient_fresh w0 o) by done.
      fold c. unfold bind.
      by rewrite (getSquareClient_times_cached _ c n).
    + intros Hold. apply Hok in Hold. simpl in Hold. lia.
    + intros c' [= <-]. simpl. lia.
  - intros host ops. apply within_budget_bound.
    apply (within_budget_run host ops initial_world 0).
    unfold within_budget. simpl. lia.
Qed.

Lemma client_cached_per_credentials_witness :
  ∃ c w',
    getSquareClient_times 3 (snd (setSquareOptions Sample.options initial_world))
      = (Normal [c; c; c], w')
    ∧ SquareClient.token c = "tok"
    ∧ squareClient w' = Some c
    ∧ constructed w' = 1%nat.
Proof.
  destruct client_cached_per_credentials as (_ & _ & _ & Hnext & _).
  destruct (Hnext initial_world Sample.options 2%nat)
    as (c & w' & Hrun & Htok & _ & Hc & Hn & _).
  - intros c [=].
  - exists c, w'. repeat split; assumption.
Defined.

(** * Further properties of the handler *)

(** ** Every call comes back *)

Lemma settlePayment_returns host order payment w :
  ∃ r w', settlePayment host order payment w = (Normal r, w').
Proof.
  unfold settlePayment, try_catch, bind, Date_now. simpl.
  rewrite getSquareClient_tick.
  destruct (getSquareClient w) as [[c|e|] w1] eqn:E; simpl;
    [|by eauto|by destruct (getSquareClient_no_hang _ _ E)].
  destruct (falsy_str _); simpl; eauto.
  unfold withTimeout, reject_after, setTimeout_delay, Promise_race, await. simpl.
  destruct (payments_complete host _ _ _) as [d [[p|]|e]|];
    [destruct (d <=? 30000)..|]; repeat case_bool_decide; simpl; eauto.
Qed.

Lemma createRefund_returns host input amount order payment w :
  ∃ r w', createRefund host input amount order payment w = (Normal r, w').
Proof.
  unfold createRefund, try_catch, bind, Date_now. simpl.
  rewrite getSquareClient_tick.
  destruct (getSquareClient w) as [[c|e|] w1] eqn:E; simpl;
    [|by eauto|by destruct (getSquareClient_no_hang _ _ E)].
  destruct (falsy_str _); simpl; eauto.
  unfold withTimeout, reject_after, setTimeout_delay, Promise_race, await. simpl.
  destruct (refunds_refundPayment host _ _ _) as [d [[p|]|e]|];
    [destruct (d <=? 30000)..|]; repeat case_bool_decide; simpl; eauto.
Qed.

(** X1.  Whatever the state of the module, and whether the processor
    answers, rejects the call with an error object, or stays silent for
    ever, each of the three payment operations returns a result to the
    platform: none of them throws and none of them waits for ever.
    (Rejections are error objects throughout; see [JsError].) *)
Theorem handlers_always_return
    (host : Host) (input : RefundOrderInput.t) (amount : Z) (order : Order)
    (metadata : gmap string jsval) (payment : Payment.t) (w : World) :
  (∃ r w', createPayment host order amount metadata w = (Normal r, w'))
  ∧ (∃ r w', settlePayment host order payment w = (Normal r, w'))
  ∧ (∃ r w', createRefund host input amount order payment w = (Normal r, w')).
Proof.
  split; [|split].
  - destruct (createPayment_returns_total host order amount metadata w)
      as (r & w' & Hrun & _). eauto.
  - apply settlePayment_returns.
  - apply createRefund_returns.
Qed.

(** ** What is sent, and when *)

(** X2.  createPayment calls the processor exactly when the accessor hands
    out a client, the token ([sourceId], else [token]) is truthy and
    credentials are stored.  It then sends one request, through that client:
    the token, the key, the [amount] argument in the order's currency, the
    stored location id, the order code as reference, the note
    [Order <code>], and [autocomplete] off.  In every other case it sends
    nothing. *)
Theorem createPayment_request
    (host : Host) (order : Order) (amount : Z) (metadata : gmap string jsval)
    (w : World) :
  let w' := snd (createPayment host order amount metadata w) in
  let sourceId := js_or (prop metadata "sourceId") (prop metadata "token") in
  (∀ c w1 o,
     getSquareClient w = (Normal c, w1) → squareOptions w = Some o →
     truthy sourceId = true →
     calls w'
     = (calls w ++
        [Build_ApiCall c
           (PaymentsCreate
              (CreatePaymentRequest.mk sourceId
                 (code order +:+ "-create-"
                  +:+ pretty (clock host (S (clock_reads w))))
                 {| amount := amount; currency := currencyCode order |}
                 (locationId o) (code order) ("Order " +:+ code order)
                 false))])%list)
  ∧ ((∀ c, fst (getSquareClient w) ≠ Normal c) ∨ squareOptions w = None
     ∨ truthy sourceId = false →
     calls w' = calls w).
Proof.
  intros w' sourceId. subst w'.
  unfold createPayment, try_catch, bind, Date_now. simpl.
  rewrite getSquareClient_tick. fold sourceId.
  destruct (getSquareClient w) as [[c|e|] w1] eqn:E;
    destruct (getSquareClient_frame _ _ _ E) as (Hcalls & Hclock & _ & Hopt);
    simpl.
  2, 3: split; [intros ? ? ? [=]|intros _; simpl; congruence].
  destruct (truthy sourceId) eqn:Ht; simpl.
  2: { split; [intros ? ? ? _ _ [=]|intros _; simpl; congruence]. }
  unfold getSquareOptions. simpl. rewrite Hopt.
  destruct (squareOptions w) as [o|] eqn:Ho; simpl.
  2: { split; [intros ? ? ? _ [=]|intros _; simpl; congruence]. }
  unfold withTimeout, reject_after, setTimeout_delay, Promise_race, await. simpl.
  rewrite Hcalls, Hclock. split.
  - intros c' w1' o' [= <- <-] [= <-] _.
    destruct (payments_create host _ _ _) as [d [[p|]|e]|];
      [destruct (d <=? 30000)..|]; simpl; by rewrite Hcalls.
  - intros [Hno | [[=] | [=]]]. by destruct (Hno c).
Qed.

Lemma createPayment_request_witness :
  calls (snd (createPayment Sample.stub Sample.order 1000 Sample.card
                Sample.ready))
  = [Build_ApiCall (SquareClient.mk 0 "tok" Sandbox)
       (PaymentsCreate
          (CreatePaymentRequest.mk (JStr "cnon:card")
             "ORD1-create-1700000000001"
             {| amount := 1000; currency := "USD" |}
             "L1" "ORD1" "Order ORD1" false))]
  ∧ calls (snd (createPayment Sample.stub Sample.order 1000 ∅ Sample.ready))
    = [].
Proof.
  split.
  - apply (proj1 (createPayment_request Sample.stub Sample.order 1000
                    Sample.card Sample.ready)
             (SquareClient.mk 0 "tok" Sandbox)
             (snd (getSquareClient Sample.ready)) Sample.options);
      reflexivity.
  - apply (proj2 (createPayment_request Sample.stub Sample.order 1000 ∅
                    Sample.ready)).
    right. right. reflexivity.
Defined.

(** ** createPayment and the processor's answer *)



(** ** The payment token *)

(** X4.  [sourceId] takes precedence over [token], and a [sourceId] that is
    present but falsy (the empty string, [null], [0], [false]) falls back to
    [token].  When both are falsy the payment is declined without a
    processor call, exactly as when both are absent; whenever a request is
    sent, the token in it is the one this rule selects. *)
Theorem createPayment_token_choice
    (host : Host) (order : Order) (amount : Z) (metadata : gmap string jsval)
    (w : World) :
  let sid := prop metadata "sourceId" in
  let tok := prop metadata "token" in
  (truthy sid = false → truthy tok = false →
     ∃ r w', createPayment host order amount metadata w = (Normal r, w')
       ∧ CreatePaymentResult.state r = Declined
       ∧ calls w' = calls w
       ∧ (configured w →
          CreatePaymentResult.errorMessage r
          = Some "Missing Square payment token (sourceId) from frontend"))
  ∧ (∀ c req,
       calls (snd (createPayment host order amount metadata w))
       = (calls w ++ [Build_ApiCall c (PaymentsCreate req)])%list →
       CreatePaymentRequest.sourceId req = (if truthy sid then sid else tok)
       ∧ truthy (CreatePaymentRequest.sourceId req) = true).
Proof.
  intros sid tok. split.
  - intros Hs Ht. enter_handler. rewrite getSquareClient_tick.
    fold sid. fold tok. unfold js_or. rewrite Hs, Ht. simpl.
    destruct (getSquareClient w) as [[c|e|] w1] eqn:E;
      destruct (getSquareClient_frame _ _ _ E) as (Hcalls & _); simpl.
    + do 2 eexists. repeat split; eauto.
    + do 2 eexists. repeat split; eauto.
      intros Hconf. exfalso. revert E. unfold getSquareClient.
      destruct Hconf as [[c Hc]|[o Ho]].
      * rewrite Hc. discriminate.
      * destruct (squareClient w); [discriminate|].
        unfold bind. rewrite (getSquareOptions_some _ _ Ho). discriminate.
    + by destruct (getSquareClient_no_hang _ _ E).
  - intros c req Hsent.
    pose proof (createPayment_request host order amount metadata w) as [_ Hno].
    destruct (createPayment_calls host order amount metadata w _ _
                (surjective_pairing _))
      as [Hsame | (c' & req' & Hc' & Hsrc & _)].
    + rewrite Hsame in Hsent. apply (f_equal length) in Hsent.
      rewrite length_app in Hsent. simpl in Hsent. lia.
    + rewrite Hc' in Hsent. apply app_inv_head in Hsent.
      injection Hsent as <- <-. split; [exact Hsrc|].
      rewrite Hsrc. destruct (truthy (js_or sid tok)) eqn:Ht; [done|].
      exfalso. simpl in Hno. fold sid in Hno. fold tok in Hno.
      rewrite Hno in Hc' by auto.
      apply (f_equal length) in Hc'.
      rewrite length_app in Hc'. simpl in Hc'. lia.
Qed.

Lemma createPayment_token_choice_witness :
  ∃ r w',
    createPayment Sample.stub Sample.order 1000
      (<["sourceId" := JStr ""]> {["token" := JNull]}) Sample.ready
    = (Normal r, w')
    ∧ CreatePaymentResult.state r = Declined
    ∧ calls w' = calls Sample.ready.
Proof.
  destruct (proj1 (createPayment_token_choice Sample.stub Sample.order 1000
                     (<["sourceId" := JStr ""]> {["token" := JNull]})
                     Sample.ready))
    as (r & w' & E & Hst & Hcalls & _); [reflexivity | reflexivity |].
  exists r, w'. repeat split; assumption.
Defined.

(** ** The log *)

(** X5.  A createPayment call writes exactly one log line, under the
    context [SquarePaymentHandler], whether the processor is not reached,
    answers, rejects the call with an error object, or times out; the line
    is at info level when the result is [Authorized] and at warn or error
    level when it is [Declined].  (Rejections are error objects throughout;
    see [JsError].) *)
Theorem createPayment_logs_once
    (host : Host) (order : Order) (amount : Z) (metadata : gmap string jsval)
    (w : World) :
  ∃ r w' e, createPayment host order amount metadata w = (Normal r, w')
    ∧ logs w' = (logs w ++ [e])%list
    ∧ context e = "SquarePaymentHandler"
    ∧ (level e = LInfo ↔ CreatePaymentResult.state r = Authorized).
Proof.
  unfold createPayment, try_catch, bind, Date_now. simpl.
  rewrite getSquareClient_tick.
  destruct (getSquareClient w) as [[c|e|] w1] eqn:E;
    destruct (getSquareClient_frame _ _ _ E) as (_ & _ & Hlogs & _); simpl;
    [| |by destruct (getSquareClient_no_hang _ _ E)].
  2: { do 3 eexists. split; [reflexivity|]. simpl. rewrite Hlogs.
       repeat split; done. }
  destruct (truthy _); simpl.
  2: { do 3 eexists. split; [reflexivity|]. simpl. rewrite Hlogs.
       repeat split; done. }
  unfold getSquareOptions. simpl.
  destruct (squareOptions w1) as [o|]; simpl.
  2: { do 3 eexists. split; [reflexivity|]. simpl. rewrite Hlogs.
       repeat split; done. }
  unfold withTimeout, reject_after, setTimeout_delay, Promise_race, await. simpl.
  destruct (payments_create host _ _ _) as [d [[p|]|e]|];
    [destruct (d <=? 30000)..|]; simpl;
    (do 3 eexists; split; [reflexivity|]; simpl; rewrite Hlogs;
     repeat split; done).
Qed.

(** X6.  settlePayment and createRefund write no log line at all when the
    processor answers in time but not with a success status (or without a
    payment or refund object): that failure is reported to the platform
    only. *)
Theorem unsuccessful_status_is_not_logged
    (host : Host) (input : RefundOrderInput.t) (amount : Z) (order : Order)
    (payment : Payment.t) (tid : string) (w w1 : World)
    (client : SquareClient.t) :
  Payment.transactionId payment = Some tid → tid ≠ "" →
  getSquareClient w = (Normal client, w1) →
  (∀ d cp,
     payments_complete host (calls w) client (CompletePaymentRequest.mk tid)
       = Settles d (inl cp) →
     d < 30000 →
     (∀ p, cp = Some p → SqPayment.status p ≠ Some "COMPLETED") →
     ∃ r w', settlePayment host order payment w = (Normal r, w')
       ∧ SettlePaymentResult.success r = false
       ∧ logs w' = logs w)
  ∧ (∀ d rf,
       refunds_refundPayment host (calls w) client
         (RefundPaymentRequest.mk
            (code order +:+ "-refund-" +:+ tpl_ID (Payment.id payment) +:+ "-"
             +:+ pretty (clock host (S (clock_reads w))))
            tid {| amount := amount; currency := currencyCode order |}
            (or_else (RefundOrderInput.reason input)
               "Customer refund request"))
         = Settles d (inl rf) →
       d < 30000 →
       (∀ r, rf = Some r → SqRefund.status r ≠ Some "COMPLETED"
                           ∧ SqRefund.status r ≠ Some "PENDING") →
       ∃ r w', createRefund host input amount order payment w = (Normal r, w')
         ∧ CreateRefundResult.state r = Failed
         ∧ logs w' = logs w).
Proof.
  intros Htid Hne E.
  destruct (getSquareClient_frame _ _ _ E) as (Hcalls & Hclock & Hlogs & _).
  split.
  - intros d cp Hanswer Hd Hstatus.
    enter_handler. rewrite getSquareClient_tick, E, Htid. simpl.
    rewrite bool_decide_eq_false_2 by done.
    unfold bind, client_payments_complete, send. simpl.
    rewrite Hcalls, Hanswer, withTimeout_in_time by lia. simpl.
    destruct cp as [p|]; simpl.
    + rewrite bool_decide_eq_false_2 by by apply Hstatus.
      simpl. eauto.
    + eauto.
  - intros d rf Hanswer Hd Hstatus.
    enter_handler. rewrite getSquareClient_tick, E, Htid. simpl.
    rewrite bool_decide_eq_false_2 by done.
    unfold bind, client_refunds_refundPayment, send. simpl.
    rewrite Hcalls, Hclock, Hanswer, withTimeout_in_time by lia. simpl.
    destruct rf as [r|]; simpl.
    + destruct (Hstatus r eq_refl) as [Hc Hp].
      rewrite !bool_decide_eq_false_2 by done. simpl. eauto.
    + eauto.
Qed.

Lemma unsuccessful_status_is_not_logged_witness :
  ∃ r w',
    createRefund refusing Sample.input 500 Sample.order Sample.payment
      Sample.ready = (Normal r, w')
    ∧ CreateRefundResult.state r = Failed
    ∧ logs w' = logs Sample.ready.
Proof.
  apply (proj2 (unsuccessful_status_is_not_logged refusing Sample.input 500
                  Sample.order Sample.payment "pay_1" Sample.ready
                  (snd (getSquareClient Sample.ready))
                  (SquareClient.mk 0 "tok" Sandbox)
                  eq_refl ltac:(discriminate) eq_refl)
           10 (Some (SqRefund.mk (Some "ref_1") (Some "REJECTED")))).
  - reflexivity.
  - lia.
  - intros r [= <-]. split; discriminate.
Defined.

(** ** Configuration across operations *)

Lemma step_config host w op :
  is_init op = false →
  config (step host w op) = config (snd (getSquareClient w)).
Proof.
  destruct op; simpl; [discriminate|..]; intros _.
  - apply createPayment_config.
  - apply settlePayment_config.
  - apply createRefund_config.
Qed.

(** X7.  A payment operation never changes the stored credentials, and
    when a client is cached it leaves that client in the cache and
    constructs no other; in any case it constructs at most one. *)
Theorem payment_operations_keep_configuration
    (host : Host) (w : World) (op : Op) :
  is_init op = false →
  squareOptions (step host w op) = squareOptions w
  ∧ (∀ c, squareClient w = Some c →
          squareClient (step host w op) = Some c
          ∧ constructed (step host w op) = constructed w)
  ∧ (constructed w ≤ constructed (step host w op) ≤ S (constructed w))%nat.
Proof.
  intros Hop. pose proof (step_config host w op Hop) as Hcfg.
  unfold config in Hcfg. injection Hcfg as Ho Hc Hn.
  rewrite Ho, Hc, Hn. clear Ho Hc Hn.
  destruct (squareClient w) as [c|] eqn:Hc.
  - rewrite (getSquareClient_cached _ _ Hc). simpl.
    split; [done|]. split; [|lia]. by intros c' [= <-].
  - destruct (squareOptions w) as [o|] eqn:Ho.
    + rewrite (getSquareClient_fresh _ _ Hc Ho). simpl.
      repeat split; try done; lia.
    + rewrite (getSquareClient_unconfigured _ Hc Ho). simpl.
      repeat split; try done; lia.
Qed.

Lemma payment_operations_keep_configuration_witness :
  squareOptions
    (step Sample.stub Sample.ready
       (OpCreatePayment Sample.order 1000 Sample.card))
  = Some Sample.options.
Proof.
  apply (payment_operations_keep_configuration Sample.stub Sample.ready
           (OpCreatePayment Sample.order 1000 Sample.card) eq_refl).
Defined.

Lemma coherent_config w w' :
  config w' = config w → coherent w → coherent w'.
Proof. unfold config, coherent. by intros [= -> -> ->]. Qed.

Lemma coherent_getSquareClient w :
  coherent w → coherent (snd (getSquareClient w)).
Proof.
  intros Hw. destruct (squareClient w) as [c|] eqn:Hc.
  - by rewrite (getSquareClient_cached _ _ Hc).
  - destruct (squareOptions w) as [o|] eqn:Ho.
    + rewrite (getSquareClient_fresh _ _ Hc Ho). simpl.
      intros c [= <-]. exists o. simpl. repeat split; try done. lia.
    + by rewrite (getSquareClient_unconfigured _ Hc Ho).
Qed.

Lemma coherent_step host w op : coherent w → coherent (step host w op).
Proof.
  intros Hw. destruct (is_init op) eqn:Hop.
  - destruct op; [intros c [=] | discriminate..].
  - eapply coherent_config; [by apply step_config|].
    by apply coherent_getSquareClient.
Qed.

Lemma coherent_run host ops w : coherent w → coherent (run host ops w).
Proof.
  unfold run. revert w. induction ops as [|op ops IH]; intros w Hw; simpl.
  - done.
  - apply IH. by apply coherent_step.
Qed.

(** X8.  After any sequence of initializations and payment operations on a
    freshly loaded module, a cached client is never stale: it carries the
    access token of the credentials stored now and is bound to the endpoint
    their environment selects. *)
Theorem cached_client_matches_credentials (host : Host) (ops : list Op) :
  coherent (run host ops initial_world).
Proof. apply coherent_run. intros c [=]. Qed.

(** ** Which credentials a call goes out with *)

Lemma settlePayment_via host order payment w :
  calls (snd (settlePayment host order payment w)) = calls w
  ∨ ∃ c w1 req,
      getSquareClient w = (Normal c, w1)
      ∧ calls (snd (settlePayment host order payment w))
        = (calls w ++ [Build_ApiCall c (PaymentsComplete req)])%list.
Proof.
  unfold settlePayment, try_catch, bind, Date_now. simpl.
  rewrite getSquareClient_tick.
  destruct (getSquareClient w) as [[c|e|] w1] eqn:E;
    destruct (getSquareClient_frame _ _ _ E) as (Hcalls & _); simpl;
    [|by left..].
  destruct (falsy_str _); simpl; [by left|].
  right. exists c, w1. eexists. split; [done|].
  unfold withTimeout, reject_after, setTimeout_delay, Promise_race, await. simpl.
  destruct (payments_complete host _ _ _) as [d [[p|]|e]|];
    [destruct (d <=? 30000)..|]; repeat case_bool_decide; simpl;
    by rewrite Hcalls.
Qed.

Lemma createRefund_via host input amount order payment w :
  calls (snd (createRefund host input amount order payment w)) = calls w
  ∨ ∃ c w1 req,
      getSquareClient w = (Normal c, w1)
      ∧ calls (snd (createRefund host input amount order payment w))
        = (calls w ++ [Build_ApiCall c (RefundsRefundPayment req)])%list.
Proof.
  unfold createRefund, try_catch, bind, Date_now. simpl.
  rewrite getSquareClient_tick.
  destruct (getSquareClient w) as [[c|e|] w1] eqn:E;
    destruct (getSquareClient_frame _ _ _ E) as (Hcalls & _); simpl;
    [|by left..].
  destruct (falsy_str _); simpl; [by left|].
  right. exists c, w1. eexists. split; [done|].
  unfold withTimeout, reject_after, setTimeout_delay, Promise_race, await. simpl.
  destruct (refunds_refundPayment host _ _ _) as [d [[p|]|e]|];
    [destruct (d <=? 30000)..|]; repeat case_bool_decide; simpl;
    by rewrite Hcalls.
Qed.

Lemma createPayment_via host order amount metadata w :
  calls (snd (createPayment host order amount metadata w)) = calls w
  ∨ ∃ c w1 o req,
      getSquareClient w = (Normal c, w1)
      ∧ squareOptions w = Some o
      ∧ CreatePaymentRequest.locationId req = locationId o
      ∧ calls (snd (createPayment host order amount metadata w))
        = (calls w ++ [Build_ApiCall c (PaymentsCreate req)])%list.
Proof.
  destruct (createPayment_request host order amount metadata w)
    as [Hsend Hnone]. simpl in Hsend, Hnone.
  destruct (getSquareClient w) as [[c|e|] w1] eqn:E;
    [|left; apply Hnone; left; by intros c..].
  destruct (squareOptions w) as [o|] eqn:Ho; [|left; apply Hnone; auto].
  destruct (truthy (js_or (prop metadata "sourceId") (prop metadata "token")))
    eqn:Ht; [|left; apply Hnone; auto].
  right. exists c, w1, o. eexists. split; [done|]. split; [done|].
  split; [|by apply (Hsend c w1 o)]. done.
Qed.

(** The client the accessor hands out in a coherent world belongs to the
    credentials stored in that world. *)
Lemma accessor_client_matches w c w1 :
  coherent w → getSquareClient w = (Normal c, w1) →
  ∃ o, squareOptions w = Some o
    ∧ SquareClient.token c = accessToken o
    ∧ SquareClient.environment c
      = (if bool_decide (environment o = "production")
         then Production else Sandbox).
Proof.
  intros Hw. destruct (squareClient w) as [c'|] eqn:Hc.
  - rewrite (getSquareClient_cached _ _ Hc). intros [= <- <-].
    destruct (Hw _ Hc) as (o & Ho & Htok & Henv & _). eauto.
  - destruct (squareOptions w) as [o|] eqn:Ho.
    + rewrite (getSquareClient_fresh _ _ Hc Ho). intros [= <- <-]. eauto.
    + by rewrite (getSquareClient_unconfigured _ Hc Ho).
Qed.

(** X9.  In any run that starts on a freshly loaded module, each operation
    makes at most one processor call, and the call goes out through a
    client that carries the access token of the credentials stored at that
    moment, bound to the endpoint they select (never those of an earlier
    initialization); a create-payment request also names their location
    id. *)
Theorem calls_use_current_credentials
    (host : Host) (ops : list Op) (op : Op) :
  let w := run host ops initial_world in
  calls (step host w op) = calls w
  ∨ ∃ c o r,
      squareOptions w = Some o
      ∧ SquareClient.token c = accessToken o
      ∧ SquareClient.environment c
        = (if bool_decide (environment o = "production")
           then Production else Sandbox)
      ∧ (∀ req, r = PaymentsCreate req →
                CreatePaymentRequest.locationId req = locationId o)
      ∧ calls (step host w op) = (calls w ++ [Build_ApiCall c r])%list.
Proof.
  intros w.
  assert (Hw : coherent w) by (apply coherent_run; intros c [=]).
  destruct op as [o|order amount metadata|order payment
                 |input amount order payment]; simpl.
  - by left.
  - destruct (createPayment_via host order amount metadata w)
      as [Hsame | (c & w1 & o & req & E & Ho & Hloc & Hcalls)]; [by left|].
    right. destruct (accessor_client_matches _ _ _ Hw E)
      as (o' & Ho' & Htok & Henv).
    rewrite Ho in Ho'. injection Ho' as <-.
    exists c, o, (PaymentsCreate req). repeat split; try done.
    by intros req' [= <-].
  - destruct (settlePayment_via host order payment w)
      as [Hsame | (c & w1 & req & E & Hcalls)]; [by left|].
    right. destruct (accessor_client_matches _ _ _ Hw E)
      as (o & Ho & Htok & Henv).
    exists c, o, (PaymentsComplete req). repeat split; done.
  - destruct (createRefund_via host input amount order payment w)
      as [Hsame | (c & w1 & req & E & Hcalls)]; [by left|].
    right. destruct (accessor_client_matches _ _ _ Hw E)
      as (o & Ho & Htok & Henv).
    exists c, o, (RefundsRefundPayment req). repeat split; done.
Qed.

(** ** Success comes from the processor *)

(** X10.  No operation reports success on its own: an [Authorized] payment,
    a settlement with [success = true] and a [Settled] refund are returned
    only after the corresponding request was sent to the processor in that
    very call.  A successful result carries no error message, and an
    [Authorized] or [Settled] one always carries a transaction id
    (possibly the empty string). *)
Theorem success_needs_processor :
  (∀ host order amount metadata w r w',
     createPayment host order amount metadata w = (Normal r, w') →
     CreatePaymentResult.state r = Authorized →
     (∃ c req,
        calls w' = (calls w ++ [Build_ApiCall c (PaymentsCreate req)])%list)
     ∧ is_Some (CreatePaymentResult.transactionId r)
     ∧ CreatePaymentResult.errorMessage r = None)
  ∧ (∀ host order payment w r w',
       settlePayment host order payment w = (Normal r, w') →
       SettlePaymentResult.success r = true →
       (∃ c req,
          calls w' = (calls w ++ [Build_ApiCall c (PaymentsComplete req)])%list)
       ∧ SettlePaymentResult.errorMessage r = None)
  ∧ (∀ host input amount order payment w r w',
       createRefund host input amount order payment w = (Normal r, w') →
       CreateRefundResult.state r = Settled →
       (∃ c req,
          calls w'
          = (calls w ++ [Build_ApiCall c (RefundsRefundPayment req)])%list)
       ∧ is_Some (CreateRefundResult.transactionId r)).
Proof.
  split; [|split].
  - intros host order amount metadata w r w'.
    unfold createPayment, try_catch, bind, Date_now. simpl.
    rewrite getSquareClient_tick.
    destruct (getSquareClient w) as [[c|e|] w1] eqn:E;
      destruct (getSquareClient_frame _ _ _ E) as (Hcalls & _); simpl;
      [|by intros [= <- <-]..].
    destruct (truthy _); simpl; [|by intros [= <- <-]].
    unfold getSquareOptions. simpl.
    destruct (squareOptions w1) as [o|]; simpl; [|by intros [= <- <-]].
    unfold withTimeout, reject_after, setTimeout_delay, Promise_race, await. simpl.
    destruct (payments_create host _ _ _) as [d [[p|]|e]|];
      [destruct (d <=? 30000)..|]; simpl; intros [= <- <-]; try done.
    intros _. simpl. rewrite Hcalls. eauto.
  - intros host order payment w r w'.
    unfold settlePayment, try_catch, bind, Date_now. simpl.
    rewrite getSquareClient_tick.
    destruct (getSquareClient w) as [[c|e|] w1] eqn:E;
      destruct (getSquareClient_frame _ _ _ E) as (Hcalls & _); simpl;
      [|by intros [= <- <-]..].
    destruct (falsy_str _); simpl; [by intros [= <- <-]|].
    unfold withTimeout, reject_after, setTimeout_delay, Promise_race, await. simpl.
    destruct (payments_complete host _ _ _) as [d [[p|]|e]|];
      [destruct (d <=? 30000)..|]; repeat case_bool_decide; simpl;
      intros [= <- <-]; try done.
    intros _. simpl. rewrite Hcalls. eauto.
  - intros host input amount order payment w r w'.
    unfold createRefund, try_catch, bind, Date_now. simpl.
    rewrite getSquareClient_tick.
    destruct (getSquareClient w) as [[c|e|] w1] eqn:E;
      destruct (getSquareClient_frame _ _ _ E) as (Hcalls & _); simpl;
      [|by intros [= <- <-]..].
    destruct (falsy_str _); simpl; [by intros [= <- <-]|].
    unfold withTimeout, reject_after, setTimeout_delay, Promise_race, await. simpl.
    destruct (refunds_refundPayment host _ _ _) as [d [[p|]|e]|];
      [destruct (d <=? 30000)..|]; repeat case_bool_decide; simpl;
      intros [= <- <-]; try done.
    all: intros _; simpl; rewrite Hcalls; eauto.
Qed.

Lemma success_needs_processor_witness :
  ∃ c req,
    calls (snd (settlePayment Sample.stub Sample.order Sample.payment
                  Sample.ready))
    = (calls Sample.ready ++ [Build_ApiCall c (PaymentsComplete req)])%list.
Proof.
  destruct success_needs_processor as (_ & Hsettle & _).
  destruct (Hsettle Sample.stub Sample.order Sample.payment Sample.ready
              (SettlePaymentResult.mk true None
                 (Some (<["squarePaymentId" := JStr "pay_1"]>
                        (<["status" := JStr "COMPLETED"]>
                         (<["completedAt" := JStr "2023-11-14T22:13:20.000Z"]>
                          ∅)))))
              (snd (settlePayment Sample.stub Sample.order Sample.payment
                      Sample.ready)))
    as [Hcall _]; [reflexivity | reflexivity | exact Hcall].
Defined.

(** ** The transaction id of an authorization *)

Lemma getSquareClient_caches w c w1 :
  getSquareClient w = (Normal c, w1) → squareClient w1 = Some c.
Proof.
  destruct (squareClient w) as [c'|] eqn:Hc.
  - rewrite (getSquareClient_cached _ _ Hc). by intros [= <- <-].
  - destruct (squareOptions w) as [o|] eqn:Ho.
    + rewrite (getSquareClient_fresh _ _ Hc Ho). by intros [= <- <-].
    + by rewrite (getSquareClient_unconfigured _ Hc Ho).
Qed.

Lemma createPayment_authorized_inv host order amount metadata w r w' :
  createPayment host order amount metadata w = (Normal r, w') →
  CreatePaymentResult.state r = Authorized →
  ∃ c w1 req,
    getSquareClient w = (Normal c, w1)
    ∧ calls w' = (calls w ++ [Build_ApiCall c (PaymentsCreate req)])%list.
Proof.
  unfold createPayment, try_catch, bind, Date_now. simpl.
  rewrite getSquareClient_tick.
  destruct (getSquareClient w) as [[c|e|] w1] eqn:E;
    destruct (getSquareClient_frame _ _ _ E) as (Hcalls & _); simpl;
    [|by intros [= <- <-]..].
  destruct (truthy _); simpl; [|by intros [= <- <-]].
  unfold getSquareOptions. simpl.
  destruct (squareOptions w1) as [o|]; simpl; [|by intros [= <- <-]].
  unfold withTimeout, reject_after, setTimeout_delay, Promise_race, await. simpl.
  destruct (payments_create host _ _ _) as [d [[p|]|e]|];
    [destruct (d <=? 30000)..|]; simpl; intros [= <- <-]; try done.
  intros _. simpl. rewrite Hcalls. eauto.
Qed.

Lemma settlePayment_sends host order payment tid w c w1 :
  Payment.transactionId payment = Some tid → tid ≠ "" →
  getSquareClient w = (Normal c, w1) →
  calls (snd (settlePayment host order payment w))
  = (calls w ++ [Build_ApiCall c
                   (PaymentsComplete (CompletePaymentRequest.mk tid))])%list.
Proof.
  intros Htid Hne E.
  destruct (getSquareClient_frame _ _ _ E) as (Hcalls & _).
  enter_handler. rewrite getSquareClient_tick, E, Htid. simpl.
  rewrite bool_decide_eq_false_2 by done.
  unfold bind, client_payments_complete, send. simpl.
  unfold withTimeout, reject_after, setTimeout_delay, Promise_race, await. simpl.
  destruct (payments_complete host _ _ _) as [d [[p|]|e]|];
    [destruct (d <=? 30000)..|]; repeat case_bool_decide; simpl;
    by rewrite Hcalls.
Qed.

(** X12.  An authorization can come back without a usable transaction id:
    when the processor's payment object has no id (or an empty one),
    createPayment still returns [Authorized], with the empty string as
    transaction id and [squarePaymentId] undefined or empty in the
    metadata.  A payment record carrying that id lacks a transaction id in
    the sense of settlePayment and createRefund. *)
Theorem authorized_without_payment_id
    (host : Host) (order : Order) (amount : Z) (metadata : gmap string jsval)
    (w w1 : World) (client : SquareClient.t)
    (o : SquarePaymentHandlerOptions) (d : Z) (p : SqPayment.t) (pid : ID) :
  let sourceId := js_or (prop metadata "sourceId") (prop metadata "token") in
  let request :=
    CreatePaymentRequest.mk sourceId
      (code order +:+ "-create-" +:+ pretty (clock host (S (clock_reads w))))
      {| amount := amount; currency := currencyCode order |}
      (locationId o) (code order) ("Order " +:+ code order) false in
  truthy sourceId = true →
  getSquareClient w = (Normal client, w1) →
  squareOptions w = Some o →
  payments_create host (calls w) client request = Settles d (inl (Some p)) →
  d < 30000 →
  SqPayment.id p = None ∨ SqPayment.id p = Some "" →
  ∃ r w', createPayment host order amount metadata w = (Normal r, w')
    ∧ CreatePaymentResult.state r = Authorized
    ∧ CreatePaymentResult.transactionId r = Some ""
    ∧ CreatePaymentResult.metadata r !! "squarePaymentId"
      = Some (js_of_str (SqPayment.id p))
    ∧ lacks_transaction_id
        (Payment.mk pid (CreatePaymentResult.transactionId r)).
Proof.
  intros sourceId request Htoken E Ho Hanswer Hd Hid.
  destruct (getSquareClient_frame _ _ _ E) as (Hcalls & Hclock & _ & Hopt).
  enter_handler. rewrite getSquareClient_tick, E. simpl.
  fold sourceId. rewrite Htoken. simpl.
  unfold bind, getSquareOptions. simpl. rewrite Hopt, Ho.
  unfold ret, client_payments_create, send. simpl.
  rewrite Hcalls, Hclock. fold request. rewrite Hanswer.
  rewrite withTimeout_in_time by lia. simpl.
  do 2 eexists. split; [reflexivity|]. simpl.
  assert (Hor : or_else (SqPayment.id p) "" = "")
    by (destruct Hid as [-> | ->]; reflexivity).
  rewrite Hor. repeat split; try done. by right.
Qed.

Lemma authorized_without_payment_id_witness :
  ∃ r w',
    createPayment
      {| clock := clock Sample.stub; toISOString := toISOString Sample.stub;
         payments_create := λ _ _ _,
           Settles 10 (inl (Some (SqPayment.mk None (Some "APPROVED")
                                    None None)));
         payments_complete := payments_complete Sample.stub;
         refunds_refundPayment := refunds_refundPayment Sample.stub |}
      Sample.order 1000 Sample.card Sample.ready = (Normal r, w')
    ∧ CreatePaymentResult.state r = Authorized
    ∧ CreatePaymentResult.transactionId r = Some "".
Proof.
  destruct (authorized_without_payment_id
              {| clock := clock Sample.stub;
                 toISOString := toISOString Sample.stub;
                 payments_create := λ _ _ _,
                   Settles 10 (inl (Some (SqPayment.mk None (Some "APPROVED")
                                            None None)));
                 payments_complete := payments_complete Sample.stub;
                 refunds_refundPayment := refunds_refundPayment Sample.stub |}
              Sample.order 1000 Sample.card Sample.ready
              (snd (getSquareClient Sample.ready))
              (SquareClient.mk 0 "tok" Sandbox) Sample.options 10
              (SqPayment.mk None (Some "APPROVED") None None) (IdNum 7))
    as (r & w' & E & Hst & Htid & _);
    [reflexivity | reflexivity | reflexivity | reflexivity | lia
    | left; reflexivity |].
  exists r, w'. repeat split; assumption.
Defined.

(** ** Idempotency keys across orders and operations *)

Lemma has_char_app ch (a b : string) :
  has_char ch (a +:+ b) = has_char ch a || has_char ch b.
Proof.
  induction a as [|h a IH]; [done|].
  change (String h a +:+ b) with (String h (a +:+ b)). simpl.
  by rewrite IH, orb_assoc.
Qed.

Lemma string_app_assoc (a b c : string) : (a +:+ b) +:+ c = a +:+ (b +:+ c).
Proof.
  induction a as [|h a IH]; [done|].
  change ((String h a +:+ b) +:+ c) with (String h ((a +:+ b) +:+ c)).
  by rewrite IH.
Qed.

(** A string is cut in one way only at the last occurrence of a character. *)
Lemma cut_at_last ch (a b x y : string) :
  has_char ch x = false → has_char ch y = false →
  a +:+ String ch x = b +:+ String ch y → a = b ∧ x = y.
Proof.
  intros Hx Hy. revert b.
  induction a as [|h a IH]; intros [|h' b] Heq.
  - by injection Heq as ->.
  - change (String h' b +:+ String ch y)
      with (String h' (b +:+ String ch y)) in Heq.
    injection Heq as <- ->.
    rewrite has_char_app in Hx. simpl in Hx.
    rewrite bool_decide_eq_true_2 in Hx by done.
    by rewrite orb_true_r in Hx.
  - change (String h a +:+ String ch x)
      with (String h (a +:+ String ch x)) in Heq.
    injection Heq as -> <-.
    rewrite has_char_app in Hy. simpl in Hy.
    rewrite bool_decide_eq_true_2 in Hy by done.
    by rewrite orb_true_r in Hy.
  - change (String h a +:+ String ch x = String h' b +:+ String ch y)
      with (String h (a +:+ String ch x) = String h' (b +:+ String ch y))
      in Heq.
    injection Heq as -> Heq. destruct (IH _ Heq) as [-> ->]. done.
Qed.

(** Decimal printing produces digits and at most a sign, never a letter. *)
Lemma pretty_N_go_no_c (x : N) (s : string) :
  has_char "c"%char s = false → has_char "c"%char (pretty_N_go x s) = false.
Proof.
  revert s. induction (N.lt_wf_0 x) as [x _ IH]; intros s Hs.
  destruct (decide (x = 0)%N) as [->|Hx].
  - by rewrite pretty_N_go_0.
  - rewrite pretty_N_go_step by lia. apply IH.
    + apply N.div_lt; lia.
    + simpl. rewrite Hs. unfold pretty_N_char.
      by repeat case_match.
Qed.

Lemma pretty_Z_no_c (z : Z) : has_char "c"%char (pretty z) = false.
Proof.
  destruct z as [|p|p]; [done|..].
  - by apply pretty_N_go_no_c.
  - change (pretty (Z.neg p)) with ("-" +:+ pretty_N_go (N.pos p) "").
    rewrite has_char_app. simpl. by apply pretty_N_go_no_c.
Qed.

Lemma snoc_dash_inj (a b : string) : a +:+ "-" = b +:+ "-" → a = b.
Proof.
  revert b. induction a as [|h a IH]; intros [|h' b] Heq; [done|..].
  - change ("-" = String h' (b +:+ "-")) in Heq.
    injection Heq as _ Heq. by destruct b.
  - change (String h (a +:+ "-") = "-") in Heq.
    injection Heq as _ Heq. by destruct a.
  - change (String h (a +:+ "-") = String h' (b +:+ "-")) in Heq.
    injection Heq as -> Heq. f_equal. by apply IH.
Qed.

(** The create key determines the order code and the time it was built
    from. *)
Lemma create_key_inj (code1 code2 : string) (t1 t2 : Z) :
  code1 +:+ "-create-" +:+ pretty t1 = code2 +:+ "-create-" +:+ pretty t2 →
  code1 = code2 ∧ t1 = t2.
Proof.
  intros Heq.
  change ("-create-" +:+ pretty t1)
    with ("-" +:+ String "c"%char ("reate-" +:+ pretty t1)) in Heq.
  change ("-create-" +:+ pretty t2)
    with ("-" +:+ String "c"%char ("reate-" +:+ pretty t2)) in Heq.
  rewrite <- !string_app_assoc in Heq.
  apply cut_at_last in Heq as [Hcode Htime].
  - split.
    + by apply snoc_dash_inj.
    + apply (inj (String.append "reate-")) in Htime.
      by apply (inj pretty).
  - rewrite has_char_app. simpl. apply pretty_Z_no_c.
  - rewrite has_char_app. simpl. apply pretty_Z_no_c.
Qed.

Lemma createPayment_sent_key host order amount metadata w c req :
  calls (snd (createPayment host order amount metadata w))
  = (calls w ++ [Build_ApiCall c (PaymentsCreate req)])%list →
  CreatePaymentRequest.idempotencyKey req
  = code order +:+ "-create-" +:+ pretty (clock host (S (clock_reads w))).
Proof.
  intros Hsent.
  destruct (createPayment_calls host order amount metadata w _ _
              (surjective_pairing _))
    as [Hsame | (c' & req' & Hc' & _ & Hkey & _)].
  - rewrite Hsame in Hsent. apply (f_equal length) in Hsent.
    rewrite length_app in Hsent. simpl in Hsent. lia.
  - rewrite Hc' in Hsent. apply app_inv_head in Hsent.
    by injection Hsent as <- <-.
Qed.

Lemma createRefund_sent_key host input amount order payment w c req :
  calls (snd (createRefund host input amount order payment w))
  = (calls w ++ [Build_ApiCall c (RefundsRefundPayment req)])%list →
  RefundPaymentRequest.idempotencyKey req
  = code order +:+ "-refund-" +:+ tpl_ID (Payment.id payment) +:+ "-"
    +:+ pretty (clock host (S (clock_reads w))).
Proof.
  intros Hsent.
  destruct (createRefund_calls host input amount order payment w _ _
              (surjective_pairing _))
    as [Hsame | (c' & req' & Hc' & Hkey & _)].
  - rewrite Hsame in Hsent. apply (f_equal length) in Hsent.
    rewrite length_app in Hsent. simpl in Hsent. lia.
  - rewrite Hc' in Hsent. apply app_inv_head in Hsent.
    by injection Hsent as <- <-.
Qed.

(** X13.  Two create-payment requests carry the same idempotency key only
    if they are for the same order code and were keyed at the same clock
    reading: requests for different orders never share a key, whatever the
    order codes look like.  And a create-payment request never shares its
    key with a refund request for an order with the same code. *)
Theorem idempotency_keys_do_not_collide :
  (∀ host1 host2 order1 order2 amount1 amount2 metadata1 metadata2
     w1 w2 c1 c2 req1 req2,
     calls (snd (createPayment host1 order1 amount1 metadata1 w1))
     = (calls w1 ++ [Build_ApiCall c1 (PaymentsCreate req1)])%list →
     calls (snd (createPayment host2 order2 amount2 metadata2 w2))
     = (calls w2 ++ [Build_ApiCall c2 (PaymentsCreate req2)])%list →
     CreatePaymentRequest.idempotencyKey req1
     = CreatePaymentRequest.idempotencyKey req2 →
     code order1 = code order2
     ∧ clock host1 (S (clock_reads w1)) = clock host2 (S (clock_reads w2)))
  ∧ (∀ host1 host2 order1 order2 amount1 amount2 metadata1 input2 payment2
       w1 w2 c1 c2 req1 req2,
       calls (snd (createPayment host1 order1 amount1 metadata1 w1))
       = (calls w1 ++ [Build_ApiCall c1 (PaymentsCreate req1)])%list →
       calls (snd (createRefund host2 input2 amount2 order2 payment2 w2))
       = (calls w2 ++ [Build_ApiCall c2 (RefundsRefundPayment req2)])%list →
       code order1 = code order2 →
       CreatePaymentRequest.idempotencyKey req1
       ≠ RefundPaymentRequest.idempotencyKey req2).
Proof.
  split.
  - intros host1 host2 order1 order2 amount1 amount2 metadata1 metadata2
      w1 w2 c1 c2 req1 req2 H1 H2 Heq.
    rewrite (createPayment_sent_key _ _ _ _ _ _ _ H1),
      (createPayment_sent_key _ _ _ _ _ _ _ H2) in Heq.
    by apply create_key_inj.
  - intros host1 host2 order1 order2 amount1 amount2 metadata1 input2 payment2
      w1 w2 c1 c2 req1 req2 H1 H2 Hcode Heq.
    rewrite (createPayment_sent_key _ _ _ _ _ _ _ H1),
      (createRefund_sent_key _ _ _ _ _ _ _ _ H2), Hcode in Heq.
    apply (inj (String.append _)) in Heq. discriminate.
Qed.

Lemma idempotency_keys_do_not_collide_witness :
  CreatePaymentRequest.idempotencyKey
    (CreatePaymentRequest.mk (JStr "cnon:card") "ORD1-create-1700000000001"
       {| amount := 1000; currency := "USD" |} "L1" "ORD1" "Order ORD1" false)
  ≠ RefundPaymentRequest.idempotencyKey
      (RefundPaymentRequest.mk "ORD1-refund-7-1700000000001" "pay_1"
         {| amount := 500; currency := "USD" |} "damaged").
Proof.
  apply (proj2 idempotency_keys_do_not_collide
           Sample.stub Sample.stub Sample.order Sample.order 1000 500
           Sample.card Sample.input Sample.payment Sample.ready Sample.ready
           (SquareClient.mk 0 "tok" Sandbox) (SquareClient.mk 0 "tok" Sandbox));
    reflexivity.
Defined.

(** ** What settlement depends on *)

(** X14.  settlePayment uses the order for its log lines only: for the same
    payment record, module state and processor, two different orders get
    the same result and cause the same processor call. *)
Theorem settlePayment_ignores_order
    (host : Host) (order1 order2 : Order) (payment : Payment.t) (w : World) :
  fst (settlePayment host order1 payment w)
  = fst (settlePayment host order2 payment w)
  ∧ calls (snd (settlePayment host order1 payment w))
    = calls (snd (settlePayment host order2 payment w)).
Proof.
  unfold settlePayment, try_catch, bind, Date_now. simpl.
  rewrite getSquareClient_tick.
  destruct (getSquareClient w) as [[c|e|] w1]; simpl; [|done..].
  destruct (falsy_str _); simpl; [done|].
  unfold withTimeout, reject_after, setTimeout_delay, Promise_race, await. simpl.
  destruct (payments_complete host _ _ _) as [d [[p|]|e]|];
    [destruct (d <=? 30000)..|]; repeat case_bool_decide; done.
Qed.

(** ** Between initializations *)

(** Payment operations, however many, leave the stored credentials alone. *)
Lemma run_keeps_options host ops w :
  Forall (λ op, is_init op = false) ops →
  squareOptions (run host ops w) = squareOptions w.
Proof.
  unfold run. intros Hops. revert w.
  induction Hops as [|op ops Hop _ IH]; intros w; simpl; [done|].
  rewrite IH.
  pose proof (step_config host w op Hop) as Hcfg.
  unfold config in Hcfg. injection Hcfg as -> _ _.
  by destruct (getSquareClient_frame w _ _ (surjective_pairing _))
    as (_ & _ & _ & ->).
Qed.

(** They also leave a cached client in the cache and construct no other. *)
Lemma run_keeps_client host ops w c :
  Forall (λ op, is_init op = false) ops →
  squareClient w = Some c →
  squareClient (run host ops w) = Some c
  ∧ constructed (run host ops w) = constructed w.
Proof.
  unfold run. intros Hops. revert w.
  induction Hops as [|op ops Hop _ IH]; intros w Hc; simpl; [done|].
  pose proof (step_config host w op Hop) as Hcfg.
  rewrite (getSquareClient_cached _ _ Hc) in Hcfg.
  unfold config in Hcfg. simpl in Hcfg. injection Hcfg as _ Hc' Hn.
  rewrite Hc in Hc'. destruct (IH _ Hc') as [-> ->]. done.
Qed.

(** ** The authorized payment *)

Lemma createPayment_authorizes_at host order amount metadata w w1 client o d
    payment :
  let sourceId := js_or (prop metadata "sourceId") (prop metadata "token") in
  let request :=
    CreatePaymentRequest.mk sourceId
      (code order +:+ "-create-" +:+ pretty (clock host (S (clock_reads w))))
      {| amount := amount; currency := currencyCode order |}
      (locationId o) (code order) ("Order " +:+ code order) false in
  truthy sourceId = true →
  getSquareClient w = (Normal client, w1) →
  squareOptions w = Some o →
  payments_create host (calls w) client request
    = Settles d (inl (Some payment)) →
  d ≤ 30000 →
  ∃ w',
    createPayment host order amount metadata w
    = (Normal
         (CreatePaymentResult.mk (total order) Authorized
            (Some (or_else (SqPayment.id payment) "")) None
            (<["squarePaymentId" := js_of_str (SqPayment.id payment)]>
             (<["status" := js_of_str (SqPayment.status payment)]>
              (<["receiptUrl" := js_of_str (SqPayment.receiptUrl payment)]>
               (<["orderId" := js_of_str (SqPayment.orderId payment)]> ∅))))),
       w')
    ∧ calls w'
      = (calls w ++ [Build_ApiCall client (PaymentsCreate request)])%list.
Proof.
  intros sourceId request Htoken E Ho Hanswer Hd.
  destruct (getSquareClient_frame _ _ _ E) as (Hcalls & Hclock & _ & Hopt).
  enter_handler. rewrite getSquareClient_tick, E. simpl.
  fold sourceId. rewrite Htoken. simpl.
  unfold bind, getSquareOptions. simpl. rewrite Hopt, Ho.
  unfold ret, client_payments_create, send. simpl.
  rewrite Hcalls, Hclock. fold request. rewrite Hanswer.
  rewrite withTimeout_in_time by done. simpl.
  eexists. split; [reflexivity|]. simpl. by rewrite Hcalls.
Qed.

(** C9.  After initialization, that is in every state in which credentials
    are stored, whether a client is cached already (any payment after the
    first) or not yet (the first one), a createPayment call carrying a
    token, whose request the processor answers within the 30000 ms with a
    payment object, returns [Authorized]; the transaction id is the
    processor's payment id (the empty string if the object has none) and
    the metadata carries the processor's status, receipt URL and order id.
    The one request sent goes through the cached client, or through a
    client built from the stored credentials when none is cached, and has
    [autocomplete = false].  Every state reached from an initialization by
    payment operations is such a state. *)
Theorem createPayment_authorizes
    (host : Host) (options : SquarePaymentHandlerOptions) (order : Order)
    (amount : Z) (metadata : gmap string jsval) :
  let sourceId := js_or (prop metadata "sourceId") (prop metadata "token") in
  (∀ w,
     squareOptions w = Some options →
     truthy sourceId = true →
     ∃ client w1,
       getSquareClient w = (Normal client, w1)
       ∧ (∀ c, squareClient w = Some c → client = c)
       ∧ (squareClient w = None →
          client
          = SquareClient.mk (constructed w) (accessToken options)
              (if bool_decide (environment options = "production")
               then Production else Sandbox))
       ∧ ∀ d payment,
           let request :=
             CreatePaymentRequest.mk sourceId
               (code order +:+ "-create-"
                +:+ pretty (clock host (S (clock_reads w))))
               {| amount := amount; currency := currencyCode order |}
               (locationId options) (code order) ("Order " +:+ code order)
               false in
           payments_create host (calls w) client request
             = Settles d (inl (Some payment)) →
           d ≤ 30000 →
           ∃ r w', createPayment host order amount metadata w = (Normal r, w')
             ∧ CreatePaymentResult.state r = Authorized
             ∧ CreatePaymentResult.transactionId r
               = Some (or_else (SqPayment.id payment) "")
             ∧ (∀ i, SqPayment.id payment = Some i →
                     CreatePaymentResult.transactionId r = Some i)
             ∧ CreatePaymentResult.metadata r !! "status"
               = Some (js_of_str (SqPayment.status payment))
             ∧ CreatePaymentResult.metadata r !! "receiptUrl"
               = Some (js_of_str (SqPayment.receiptUrl payment))
             ∧ CreatePaymentResult.metadata r !! "orderId"
               = Some (js_of_str (SqPayment.orderId payment))
             ∧ calls w'
               = (calls w
                  ++ [Build_ApiCall client (PaymentsCreate request)])%list
             ∧ CreatePaymentRequest.autocomplete request = false)
  ∧ (∀ w0 ops,
       Forall (λ op, is_init op = false) ops →
       squareOptions (run host ops (snd (init options w0))) = Some options).
Proof.
  intros sourceId. split.
  - intros w Ho Htoken.
    assert (∃ client w1,
              getSquareClient w = (Normal client, w1)
              ∧ (∀ c, squareClient w = Some c → client = c)
              ∧ (squareClient w = None →
                 client
                 = SquareClient.mk (constructed w) (accessToken options)
                     (if bool_decide (environment options = "production")
                      then Production else Sandbox)))
      as (client & w1 & E & Hcached & Hfresh).
    { destruct (squareClient w) as [c|] eqn:Hc.
      - exists c, w. split; [by apply getSquareClient_cached|].
        split; [by intros c' [= <-]|done].
      - do 2 eexists. split; [by apply getSquareClient_fresh|].
        split; [done|]. by intros _. }
    exists client, w1. split; [exact E|]. split; [exact Hcached|].
    split; [exact Hfresh|].
    intros d payment request Hanswer Hd.
    destruct (createPayment_authorizes_at host order amount metadata w w1
                client options d payment Htoken E Ho Hanswer Hd)
      as (w' & Hrun & Hcalls).
    do 2 eexists. split; [exact Hrun|]. simpl.
    repeat split; try done.
    intros i Hi. rewrite Hi. by rewrite or_else_empty.
  - intros w0 ops Hops. by rewrite run_keeps_options.
Qed.

(** The second payment after an initialization: the client is cached, and
    the payment is authorized through it. *)
Lemma createPayment_authorizes_witness :
  ∃ r w',
    createPayment Sample.stub Sample.order 1000 Sample.card
      (run Sample.stub [OpCreatePayment Sample.order 1000 Sample.card]
         (snd (init Sample.options initial_world)))
    = (Normal r, w')
    ∧ CreatePaymentResult.state r = Authorized
    ∧ CreatePaymentResult.transactionId r = Some "pay_1"
    ∧ CreatePaymentResult.metadata r !! "status" = Some (JStr "AUTHORIZED")
    ∧ length (calls w') = 2%nat.
Proof.
  destruct (createPayment_authorizes Sample.stub Sample.options Sample.order
              1000 Sample.card) as [Hpay Hafter].
  destruct (Hpay (run Sample.stub
                    [OpCreatePayment Sample.order 1000 Sample.card]
                    (snd (init Sample.options initial_world))))
    as (client & w1 & E & Hcached & _ & Hauth).
  - apply (Hafter initial_world
             [OpCreatePayment Sample.order 1000 Sample.card]).
    repeat constructor.
  - reflexivity.
  - pose proof (Hcached (SquareClient.mk 0 "tok" Sandbox) eq_refl) as ->.
    destruct (Hauth 10 Sample.authorized)
      as (r & w' & Hrun & Hst & _ & Hid & Hstatus & _ & _ & Hcalls & _);
      [reflexivity | lia |].
    exists r, w'. split; [exact Hrun|]. split; [exact Hst|].
    split; [apply Hid; reflexivity|]. split; [exact Hstatus|].
    rewrite Hcalls. reflexivity.
Defined.

(** ** From authorization to settlement *)

(** X11.  As long as the module is not initialized again, the transaction
    id an [Authorized] result hands to the platform is the id settlement
    needs: after any number of further payment operations, settling a
    payment record that carries it (when it is not empty) sends a
    complete-payment request for exactly that id, through the very client
    the authorization went through, and no client has been constructed
    since the authorization returned.  (An initialization in between
    empties the cache, and the settlement then goes through a new
    client.) *)
Theorem authorize_then_settle
    (host : Host) (order : Order) (amount : Z) (metadata : gmap string jsval)
    (w w' : World) (r : CreatePaymentResult.t) (tid : string) (pid : ID)
    (ops : list Op) :
  createPayment host order amount metadata w = (Normal r, w') →
  CreatePaymentResult.state r = Authorized →
  CreatePaymentResult.transactionId r = Some tid → tid ≠ "" →
  Forall (λ op, is_init op = false) ops →
  let record := Payment.mk pid (CreatePaymentResult.transactionId r) in
  let w2 := run host ops w' in
  let w3 := snd (settlePayment host order record w2) in
  ∃ c req,
    calls w' = (calls w ++ [Build_ApiCall c (PaymentsCreate req)])%list
    ∧ calls w3
      = (calls w2 ++ [Build_ApiCall c
                        (PaymentsComplete (CompletePaymentRequest.mk tid))])%list
    ∧ constructed w3 = constructed w'.
Proof.
  intros Hrun Hst Htid Hne Hops record w2 w3.
  destruct (createPayment_authorized_inv _ _ _ _ _ _ _ Hrun Hst)
    as (c & w1 & req & E & Hcalls).
  pose proof (createPayment_config host order amount metadata w) as Hcfg.
  rewrite Hrun, E in Hcfg. simpl in Hcfg. injection Hcfg as _ Hc _.
  rewrite (getSquareClient_caches _ _ _ E) in Hc.
  destruct (run_keeps_client host ops w' c Hops Hc) as [Hc2 Hn2].
  fold w2 in Hc2, Hn2.
  exists c, req. split; [exact Hcalls|]. split.
  - apply (settlePayment_sends host order record tid w2 c w2);
      [exact Htid | exact Hne | by apply getSquareClient_cached].
  - subst w3.
    pose proof (settlePayment_config host order record w2) as Hcfg'.
    rewrite (getSquareClient_cached _ _ Hc2) in Hcfg'.
    injection Hcfg' as _ _ ->. exact Hn2.
Qed.

(** Authorize, refund something else, then settle the authorization. *)
Lemma authorize_then_settle_witness :
  ∃ c req,
    calls (snd (createPayment Sample.stub Sample.order 1000 Sample.card
                  Sample.ready))
    = [Build_ApiCall c (PaymentsCreate req)]
    ∧ last
        (calls
           (snd (settlePayment Sample.stub Sample.order
                   (Payment.mk (IdNum 7) (Some "pay_1"))
                   (run Sample.stub
                      [OpCreateRefund Sample.input 500 Sample.order
                         (Payment.mk (IdNum 3) (Some "pay_0"))]
                      (snd (createPayment Sample.stub Sample.order 1000
                              Sample.card Sample.ready))))))
      = Some (Build_ApiCall c
                (PaymentsComplete (CompletePaymentRequest.mk "pay_1"))).
Proof.
  destruct (authorize_then_settle Sample.stub Sample.order 1000 Sample.card
              Sample.ready
              (snd (createPayment Sample.stub Sample.order 1000 Sample.card
                      Sample.ready))
              (CreatePaymentResult.mk 1000 Authorized (Some "pay_1") None
                 (<["squarePaymentId" := JStr "pay_1"]>
                  (<["status" := JStr "AUTHORIZED"]>
                   (<["receiptUrl" := JUndefined]>
                    (<["orderId" := JUndefined]> ∅)))))
              "pay_1" (IdNum 7)
              [OpCreateRefund Sample.input 500 Sample.order
                 (Payment.mk (IdNum 3) (Some "pay_0"))])
    as (c & req & Hcreate & Hsettle & _);
    [reflexivity | reflexivity | reflexivity | discriminate
    | repeat constructor |].
  exists c, req. split; [exact Hcreate|].
  etrans; [exact (f_equal last Hsettle) | apply last_snoc].
Defined.
